(** * http-payload: scanners, printers and the struct transcoding engine

    A shallow embedding of [scanner.go] and of the two revisions of the
    printer file of the package [httppayload], together with a model of
    the field-plan engine ([internal/structende]) that the adapters
    delegate to.

    Layout:
    - [Go]       : dynamic values ([any]), panics, the state-and-panic monad;
    - [reflect]  : struct fields and struct tags;
    - [http]     : header multimap, cookies, the [ResponseWriter] interface;
    - [Scanner]  : [CookieScanner.Get], [PipeScanner.Scan]   (scanner.go);
    - [Printer]  : header sink, cookie sink, [PipePrinter]   (printer file
                   with status directive and cookie expiry);
    - [Printer1] : the same sinks in the revision without those two;
    - [structende] : field plan builder, default conversion policy,
                   decode and encode drivers. *)

From Stdlib Require Import ZArith String Ascii List Lia.
From stdpp Require Import base option list gmap strings pretty.

Set Warnings "-register-all".
Local Open Scope string_scope.
Local Open Scope list_scope.
Local Open Scope Z_scope.

(* ===================================================================== *)
(** ** Go runtime: values, panics, effects *)
(* ===================================================================== *)

Module Go.

(** A value of interface type [any], tagged with its dynamic type.
    [Int] is Go's [int]; [Uint] an unsigned integer; [Float] carries the
    IEEE bit pattern; [Ptr] is a reference into the caller's store (the
    record handed to [Scan]/[Print]); [Handle] is an opaque object such
    as a [multipart.File]. *)
Inductive any : Type :=
| Nil
| Int (n : Z)
| Uint (n : Z)
| Float (bits : Z)
| Bool (b : bool)
| Str (s : string)
| Slice (xs : list any)
| Ptr (addr : positive)
| Handle (h : positive)
| Struct (fields : list (string * any)).

(** The [error] values built by [errors.New]: a message. *)
Definition error : Type := string.

(** A call with a [(T, error)] result, for errors of type [E]. *)
Inductive result (E A : Type) : Type :=
| Ok (a : A)
| Err (e : E).
Arguments Ok {E A} a.
Arguments Err {E A} e.

(** How a call ends: it returns, or it panics with a message. *)
Inductive Outcome (A : Type) : Type :=
| Returned (a : A)
| Panicked (msg : string).
Arguments Returned {A} a.
Arguments Panicked {A} msg.

(** Code that mutates an object of type [S] in place and may panic. *)
Definition M (S A : Type) : Type := S -> Outcome A * S.

Definition ret {S A} (a : A) : M S A := fun s => (Returned a, s).
Definition panic {S A} (msg : string) : M S A := fun s => (Panicked msg, s).
Definition bind {S A B} (m : M S A) (k : A -> M S B) : M S B :=
  fun s => match m s with
           | (Returned a, s') => k a s'
           | (Panicked msg, s') => (Panicked msg, s')
           end.
Definition modify {S} (f : S -> S) : M S unit := fun s => (Returned tt, f s).

Definition panics {S A} (m : M S A) (s : S) : Prop :=
  exists msg s', m s = (Panicked msg, s').

Definition returns {S A} (m : M S A) (s : S) : Prop :=
  exists a s', m s = (Returned a, s').

End Go.

Import Go.

Notation "'calling' x <- m 'in' k" := (Go.bind m (fun x => k))
  (at level 10, x name, m at level 99, k at level 200).

(* ===================================================================== *)
(** ** reflect: struct fields and their tags *)
(* ===================================================================== *)

Module reflect.

(** A struct tag in its conventional form, a sequence of [key:"value"]
    pairs in the order written. *)
Definition StructTag : Type := list (string * string).

(** [StructTag.Lookup]: the value of the first pair with that key. *)
Fixpoint Lookup (tag : StructTag) (key : string) : option string :=
  match tag with
  | [] => None
  | (k, v) :: rest => if (k =? key)%string then Some v else Lookup rest key
  end.

(** Modelled from the spec: the declared type of a struct field, as far
    as the field plan builder of section 4.1 looks at it (the builder's
    source is missing).  [Parseable] stands for any type with the parse-from-string
    capability ([UnmarshalString] in the tests), whatever its shape, and
    carries that capability, the type's zero value and, when the type
    has one, its own string-producing capability.  [Other] is any
    remaining type (a nested struct, a map, ...). *)
Inductive Type_ : Type :=
| Int_ (bits : Z)
| Uint_ (bits : Z)
| Float_ (bits : Z)
| Bool_
| String_
| Slice_ (elem : Type_)
| Interface_
| Parseable (zero : any) (parse : string -> result error any)
            (format : option (any -> result error string))
| Other (zero : any).

Record StructField : Type := {
  Name : string;
  Typ : Type_;
  Tag : StructTag
}.

(** Modelled from the spec: the static type of the value handed to a
    decoder or encoder, "a composite (a product-of-fields type)" or not
    (section 4.1). *)
Inductive RecordType : Type :=
| Composite (fields : list StructField)
| NotComposite.

End reflect.

(* ===================================================================== *)
(** ** net/http: headers, cookies, response writers *)
(* ===================================================================== *)

Module http.

(** [http.Header] is a [map[string][]string]. *)
Abbreviation Header := (gmap string (list string)).

(** [http.SameSite] is an [int]; its constants start at [iota + 1]. *)
Definition SameSite : Type := Z.
Definition SameSiteDefaultMode : SameSite := 1.
Definition SameSiteLaxMode : SameSite := 2.
Definition SameSiteStrictMode : SameSite := 3.
Definition SameSiteNoneMode : SameSite := 4.

(** The fields of [http.Cookie] that the package sets; every other field
    keeps its zero value. *)
Record Cookie : Type := {
  Name : string;
  Value : string;
  Path : string;
  Secure : bool;
  SameSite_ : SameSite;
  RawExpires : string
}.

(** What the package takes from the Go standard library without
    defining it: the [%s] formatting of a value, the canonical form of a
    header key, and the serialisation of a cookie (empty when net/http
    refuses the cookie). *)
Class Stdlib : Type := {
  fmt_Sprintf_s : any -> string;
  CanonicalMIMEHeaderKey : string -> string;
  Cookie_String : Cookie -> string
}.

Section header.
Context `{Stdlib}.

(** [h.Set(key, value)] replaces the values under the canonical key. *)
Definition Header_Set (key value : string) (h : Header) : Header :=
  <[CanonicalMIMEHeaderKey key := [value]]> h.

(** [h.Add(key, value)] appends to the values under the canonical key. *)
Definition Header_Add (key value : string) (h : Header) : Header :=
  <[CanonicalMIMEHeaderKey key :=
      (default [] (h !! CanonicalMIMEHeaderKey key) ++ [value])%list]> h.

(** [h.Values(key)] *)
Definition Header_Values (key : string) (h : Header) : list string :=
  default [] (h !! CanonicalMIMEHeaderKey key).

(** [h.Get(key)]: the first value under the canonical key, or the empty
    string when there is none. *)
Definition Header_Get (key : string) (h : Header) : string :=
  match h !! CanonicalMIMEHeaderKey key with
  | Some (first :: _) => first
  | _ => ""
  end.
End header.

(** The [http.ResponseWriter] interface.  [Header()] hands out the
    writer's own header map, so a mutation of that map is a mutation of
    the writer: [Header_mutate f w] is [w] after [f] was applied to the
    map returned by [w.Header()]. *)
Class ResponseWriter (W : Type) : Type := {
  Header_of : W -> Header;
  Header_mutate : (Header -> Header) -> W -> W;
  Write : string -> W -> W;
  WriteHeader : Z -> W -> W
}.

(** [http.SetCookie(w, cookie)]: adds a [Set-Cookie] header, unless the
    cookie serialises to the empty string. *)
Definition SetCookie `{Stdlib} {W} `{ResponseWriter W} (cookie : Cookie) (w : W) : W :=
  let v := Cookie_String cookie in
  if (v =? "")%string then w
  else Header_mutate (Header_Add "Set-Cookie" v) w.

(** The response writer of the package's own tests: a header map, a body
    buffer and a status code. *)
Record TestWriter : Type := {
  header : Header;
  buffer : string;
  status : Z
}.

Definition StatusOK : Z := 200.

Definition NewResponseWriter : TestWriter :=
  {| header := ∅; buffer := ""; status := StatusOK |}.

#[export] Instance TestWriter_ResponseWriter : ResponseWriter TestWriter := {
  Header_of w := header w;
  Header_mutate f w :=
    {| header := f (header w); buffer := buffer w; status := status w |};
  Write p w :=
    {| header := header w; buffer := buffer w +:+ p; status := status w |};
  WriteHeader code w :=
    {| header := header w; buffer := buffer w; status := code |}
}.

End http.

(* ===================================================================== *)
(** ** net/url: query and form values *)
(* ===================================================================== *)

Module url.

(** [url.Values] is a [map[string][]string]; a nil map reads like the
    empty one. *)
Abbreviation Values := (gmap string (list string)).

(** [v.Get(key)]: the first value of the key as written, or the empty
    string when there is none. *)
Definition Values_Get (key : string) (v : Values) : string :=
  match v !! key with
  | Some (first :: _) => first
  | _ => ""
  end.

(** [v.Set(key, value)] *)
Definition Values_Set (key value : string) (v : Values) : Values :=
  <[key := [value]]> v.

End url.

(* ===================================================================== *)
(** ** scanner.go *)
(* ===================================================================== *)

Module Scanner.

(** *** CookieScanner *)

(** [cookies []*http.Cookie]: a slice of pointers; [None] is a nil
    pointer, which net/http never puts into a cookie list. *)
Record CookieScanner : Type := {
  cookies : list (option http.Cookie)
}.

Definition NewCookieScanner (cookies : list (option http.Cookie)) : CookieScanner :=
  {| cookies := cookies |}.

(** scanner.go, lines 91-99: the [for _, cookie := range v.cookies] loop
    of [Get], and the [return nil] after it. *)
Fixpoint Get_range (cs : list (option http.Cookie)) (key : string) : Outcome any :=
  match cs with
  | [] => Returned Nil
  | None :: _ => Panicked "invalid memory address or nil pointer dereference"
  | Some cookie :: rest =>
      if (http.Name cookie =? key)%string
      then Returned (Str (http.Value cookie))
      else Get_range rest key
  end.

Definition CookieScanner_Get (v : CookieScanner) (key : string) : Outcome any :=
  Get_range (cookies v) key.

(** *** PipeScanner *)

Section pipe.
(** [St] is everything a stage can touch (the record behind [v], the
    request it reads from); [E] is the type of non-nil errors. *)
Context {St E : Type}.

(** The [Scanner] interface; a [nil] error is [None]. *)
Record Scanner : Type := {
  Scan : any -> M St (option E)
}.

Definition PipeScanner : Type := list Scanner.

Definition NewPipeScanner (scanners : list Scanner) : PipeScanner := scanners.

(** scanner.go, lines 213-223. *)
Fixpoint PipeScanner_Scan (s : PipeScanner) (v : any) : M St (option E) :=
  let value := v in
  match s with
  | [] => ret None
  | scanner :: rest =>
      calling err <- Scan scanner value in
      match err with
      | Some e => ret (Some e)
      | None => PipeScanner_Scan rest v
      end
  end.

(** [scans_ok l v s s']: the stages of [l], invoked one after the
    other in list order on [v], starting in [s], all return [nil], and
    leave the store in [s']. *)
Inductive scans_ok : list Scanner -> any -> St -> St -> Prop :=
| scans_ok_nil v s : scans_ok [] v s s
| scans_ok_cons sc rest v s s' s'' :
    Scan sc v s = (Returned None, s') ->
    scans_ok rest v s' s'' ->
    scans_ok (sc :: rest) v s s''.
End pipe.
Arguments Scanner : clear implicits.
Arguments PipeScanner : clear implicits.

(** A stage that also notes in a log, kept next to the store, that it
    was invoked: its position in the pipe and the value it was given. *)
Definition traced {St E} (i : nat) (sc : Scanner St E)
    : Scanner (St * list (nat * any)) E :=
  {| Scan v := fun '(s, log) =>
       let '(o, s') := Scan sc v s in (o, (s', log ++ [(i, v)])) |}.

Fixpoint traced_from {St E} (i : nat) (l : list (Scanner St E))
    : list (Scanner (St * list (nat * any)) E) :=
  match l with
  | [] => []
  | sc :: rest => traced i sc :: traced_from (S i) rest
  end.

(** The log of [k] invocations on [v], of the stages [i], [i+1], ... *)
Definition invocations (i k : nat) (v : any) : list (nat * any) :=
  (fun j => (j, v)) <$> seq i k.

(** [Scan] is a method of [*PipeScanner], so a pipe is a [Scanner] and can
    be a stage of another pipe. *)
Definition PipeScanner_as_Scanner {St E} (s : PipeScanner St E) : Scanner St E :=
  {| Scan := PipeScanner_Scan s |}.

(** *** HeaderScanner, QueryScanner, FormScanner *)

(** What the runtime says when a nil pointer is dereferenced. *)
Definition nil_dereference : string :=
  "invalid memory address or nil pointer dereference".

(** scanner.go, lines 43-45: the embedded [*http.Header]; [None] is a nil
    pointer. *)
Record HeaderScanner : Type := {
  HeaderScanner_Header : option http.Header
}.

(** scanner.go, lines 56-60. *)
Definition NewHeaderScanner (h : option http.Header) : HeaderScanner :=
  {| HeaderScanner_Header := h |}.

(** scanner.go, lines 47-49: [h.Header.Get(key)], a string, as [any]. *)
Definition HeaderScanner_Get `{http.Stdlib} (h : HeaderScanner) (key : string)
    : Outcome any :=
  match HeaderScanner_Header h with
  | None => Panicked nil_dereference
  | Some header => Returned (Str (http.Header_Get key header))
  end.

(** scanner.go, lines 63-65: the embedded [*url.Values]. *)
Record QueryScanner : Type := {
  QueryScanner_Values : option url.Values
}.

(** scanner.go, lines 80-84: the values are taken by value and their
    address is kept, so the pointer is never nil. *)
Definition NewQueryScanner (v : url.Values) : QueryScanner :=
  {| QueryScanner_Values := Some v |}.

(** scanner.go, lines 67-69. *)
Definition QueryScanner_Get (v : QueryScanner) (key : string) : Outcome any :=
  match QueryScanner_Values v with
  | None => Panicked nil_dereference
  | Some values => Returned (Str (url.Values_Get key values))
  end.

(** scanner.go, lines 113-115. *)
Record FormScanner : Type := {
  FormScanner_Values : option url.Values
}.

(** scanner.go, lines 130-134: the pointer is kept as given. *)
Definition NewFormScanner (v : option url.Values) : FormScanner :=
  {| FormScanner_Values := v |}.

(** scanner.go, lines 117-119. *)
Definition FormScanner_Get (v : FormScanner) (key : string) : Outcome any :=
  match FormScanner_Values v with
  | None => Panicked nil_dereference
  | Some values => Returned (Str (url.Values_Get key values))
  end.

(** *** MultipartValues *)

(** scanner.go, lines 160-162: [Files map[string]multipart.File]; a file
    is an interface value, kept as [any]. *)
Record MultipartValues : Type := {
  Files : gmap string any
}.

(** scanner.go, lines 164-166: [v.Files[key]]; a missing key reads as the
    nil interface. *)
Definition MultipartValues_Get (v : MultipartValues) (key : string) : any :=
  default Nil (Files v !! key).

Section multipart.
(** [P] is the state of the parser (a request), [E] the type of non-nil
    errors. *)
Context {P E : Type}.

(** scanner.go, lines 168-171: the [MultipartParser] interface.
    [FormFile] gives the file and the error; the file header is never
    looked at. *)
Record MultipartParser : Type := {
  ParseMultipartForm : Z -> M P (option E);
  FormFile : string -> M P (any * option E)
}.

(** scanner.go, lines 182-188: the loop over [names], filling [files]. *)
Fixpoint FromParser_range (p : MultipartParser) (names : list string)
    (files : gmap string any) : M P (option MultipartValues * option E) :=
  match names with
  | [] => ret (Some {| Files := files |}, None)
  | name :: rest =>
      calling r <- FormFile p name in
      match r with
      | (_, Some err) => ret (None, Some err)
      | (file, None) => FromParser_range p rest (<[name := file]> files)
      end
  end.

(** scanner.go, lines 175-191. *)
Definition MultipartValuesFromParser (p : MultipartParser) (size : Z)
    (names : list string) : M P (option MultipartValues * option E) :=
  calling err <- ParseMultipartForm p size in
  match err with
  | Some e => ret (None, Some e)
  | None => FromParser_range p names ∅
  end.

(** [forms_ok p names s fs s']: [FormFile] asked for each of [names] in
    order, starting in [s], gives a file without error each time, the
    files being [fs] in the order asked, and leaves the parser in [s']. *)
Inductive forms_ok (p : MultipartParser)
    : list string -> P -> list (string * any) -> P -> Prop :=
| forms_ok_nil s : forms_ok p [] s [] s
| forms_ok_cons name rest file s s' fs s'' :
    FormFile p name s = (Returned (file, None), s') ->
    forms_ok p rest s' fs s'' ->
    forms_ok p (name :: rest) s ((name, file) :: fs) s''.
End multipart.
Arguments MultipartParser : clear implicits.

End Scanner.

(* ===================================================================== *)
(** ** The printer file (src/unnamed/part_000) *)
(* ===================================================================== *)

Module Printer.
Import reflect http.

Section sinks.
Context `{Stdlib} {W : Type} `{ResponseWriter W}.

(** *** HeaderPrinter: the receiver [p] is its writer [p.w]. *)

(** part_000, lines 32-43. *)
Definition HeaderPrinter_Set (key : string) (value : any) : M W unit :=
  if (key =? "Status")%string then
    match value with
    | Int code => modify (WriteHeader code)
    | _ => panic "expected int for Status header"
    end
  else
    modify (Header_mutate (Header_Set key (fmt_Sprintf_s value))).

(** *** CookiePrinter *)

(** part_000, lines 57-59. *)
Definition CookiePrinter_Set (key : string) (value : any) : M W unit :=
  ret tt.

(** part_000, lines 61-99. *)
Definition CookiePrinter_SetField (key : string) (value : any)
    (field : StructField) : M W unit :=
  let path :=
    match Lookup (Tag field) "cookie-path" with
    | Some path => path
    | None => "/"
    end in
  let secure :=
    match Lookup (Tag field) "cookie-secure" with
    | Some securestr => (securestr =? "true")%string
    | None => false
    end in
  let samesite :=
    match Lookup (Tag field) "cookie-samesite" with
    | Some samesitestr =>
        if (samesitestr =? "lax")%string then SameSiteLaxMode
        else if (samesitestr =? "strict")%string then SameSiteStrictMode
        else if (samesitestr =? "none")%string then SameSiteNoneMode
        else SameSiteDefaultMode
    | None => 0
    end in
  let expires :=
    match Lookup (Tag field) "cookie-expires" with
    | Some expires => expires
    | None => ""
    end in
  let cookieval := fmt_Sprintf_s value in
  modify (SetCookie {| Name := key; Value := cookieval; Path := path;
                       Secure := secure; SameSite_ := samesite;
                       RawExpires := expires |}).
End sinks.

(** *** PipePrinter *)
Section pipe.
Context {St E : Type}.

Record Printer : Type := {
  Print : any -> M St (option E)
}.

Definition PipePrinter : Type := list Printer.

Definition NewPipePrinter (printers : list Printer) : PipePrinter := printers.

(** part_000, lines 112-122. *)
Fixpoint PipePrinter_Print (s : PipePrinter) (v : any) : M St (option E) :=
  let value := v in
  match s with
  | [] => ret None
  | printer :: rest =>
      calling err <- Print printer value in
      match err with
      | Some e => ret (Some e)
      | None => PipePrinter_Print rest v
      end
  end.

Inductive prints_ok : list Printer -> any -> St -> St -> Prop :=
| prints_ok_nil v s : prints_ok [] v s s
| prints_ok_cons pr rest v s s' s'' :
    Print pr v s = (Returned None, s') ->
    prints_ok rest v s' s'' ->
    prints_ok (pr :: rest) v s s''.
End pipe.
Arguments Printer : clear implicits.
Arguments PipePrinter : clear implicits.

(** [Printer] and [Scanner] have the same shape: one method from [any]
    to [error]. *)
Definition as_Scanner {St E} (p : Printer St E) : Scanner.Scanner St E :=
  {| Scanner.Scan := Print p |}.

(** [Print] is a method of [*PipePrinter], so a pipe is a [Printer] and
    can be a stage of another pipe. *)
Definition PipePrinter_as_Printer {St E} (s : PipePrinter St E) : Printer St E :=
  {| Print := PipePrinter_Print s |}.

End Printer.

(* ===================================================================== *)
(** ** The printer file without status directive (src/unnamed/part_001) *)
(* ===================================================================== *)

Module Printer1.
Import reflect http.

Section sinks.
Context `{Stdlib} {W : Type} `{ResponseWriter W}.

(** part_001, lines 19-21. *)
Definition HeaderPrinter_Set (key : string) (value : any) : M W unit :=
  modify (Header_mutate (Header_Set key (fmt_Sprintf_s value))).

(** part_001, lines 35-37. *)
Definition CookiePrinter_Set (key : string) (value : any) : M W unit :=
  ret tt.

(** part_001, lines 39-72. *)
Definition CookiePrinter_SetField (key : string) (value : any)
    (field : StructField) : M W unit :=
  let path :=
    match Lookup (Tag field) "cookie-path" with
    | Some path => path
    | None => "/"
    end in
  let secure :=
    match Lookup (Tag field) "cookie-secure" with
    | Some securestr => (securestr =? "true")%string
    | None => false
    end in
  let samesite :=
    match Lookup (Tag field) "cookie-samesite" with
    | Some samesitestr =>
        if (samesitestr =? "lax")%string then SameSiteLaxMode
        else if (samesitestr =? "strict")%string then SameSiteStrictMode
        else if (samesitestr =? "none")%string then SameSiteNoneMode
        else SameSiteDefaultMode
    | None => 0
    end in
  let cookieval := fmt_Sprintf_s value in
  modify (SetCookie {| Name := key; Value := cookieval; Path := path;
                       Secure := secure; SameSite_ := samesite;
                       RawExpires := "" |}).
End sinks.

Section pipe.
Context {St E : Type}.

(** part_001, lines 85-95. *)
Fixpoint PipePrinter_Print (s : Printer.PipePrinter St E) (v : any)
    : M St (option E) :=
  let value := v in
  match s with
  | [] => ret None
  | printer :: rest =>
      calling err <- Printer.Print printer value in
      match err with
      | Some e => ret (Some e)
      | None => PipePrinter_Print rest v
      end
  end.
End pipe.

End Printer1.

(* ===================================================================== *)
(** ** internal/structende: the transcoding engine *)
(* ===================================================================== *)

Module structende.
Import reflect.

(** The engine is the package [internal/structende], which scanner.go and
    the printer file import and which is not among the sources.  Every
    definition of this module is written from the specification of the
    engine (sections 3 and 4), not from code. *)

(** *** Text helpers *)

(** Modelled from the spec: the comma delimiter of sequence fields
    (section 4.2); the engine's source is missing. *)
Definition comma : ascii := ","%char.

(** Modelled from the spec: "raw text is split on a comma delimiter into
    an ordered list of substrings", without escaping (section 4.2); the
    engine's source is missing.  A text without comma is one substring. *)
Fixpoint split (text : string) : list string :=
  match text with
  | EmptyString => [""]
  | String c rest =>
      if Ascii.eqb c comma then "" :: split rest
      else match split rest with
           | [] => [String c ""]
           | first :: others => String c first :: others
           end
  end.

(** Modelled from the spec: "re-joining formatted elements with the comma
    delimiter" (section 4.4); the engine's source is missing. *)
Fixpoint join (parts : list string) : string :=
  match parts with
  | [] => ""
  | [last] => last
  | part :: rest => part +:+ String comma (join rest)
  end.

(** Modelled from the spec: whether an element has a comma inside, which
    the delimiter cannot represent (section 4.2). *)
Fixpoint has_comma (text : string) : bool :=
  match text with
  | EmptyString => false
  | String c rest => Ascii.eqb c comma || has_comma rest
  end.

(** Modelled from the spec: "standard numeric-literal rules" (section
    4.2), read as decimal literals; the engine's parser is missing. *)
Definition digit_of (c : ascii) : option Z :=
  let n := Z.of_N (N_of_ascii c) in
  if (48 <=? n) && (n <=? 57) then Some (n - 48) else None.

(** Modelled from the spec: a run of decimal digits, most significant
    first (section 4.2); the engine's parser is missing. *)
Fixpoint parse_digits (acc : Z) (text : string) : option Z :=
  match text with
  | EmptyString => Some acc
  | String c rest =>
      match digit_of c with
      | Some d => parse_digits (10 * acc + d) rest
      | None => None
      end
  end.

(** Modelled from the spec: an unsigned decimal literal, one digit or
    more (section 4.2); the engine's parser is missing. *)
Definition parse_unsigned (text : string) : option Z :=
  match text with
  | EmptyString => None
  | _ => parse_digits 0 text
  end.

(** Modelled from the spec: a signed decimal literal, an optional sign
    and then digits (section 4.2); the engine's parser is missing. *)
Definition parse_signed (text : string) : option Z :=
  match text with
  | String "+"%char rest => parse_unsigned rest
  | String "-"%char rest => Z.opp <$> parse_unsigned rest
  | _ => parse_unsigned text
  end.

(** *** Data model (spec section 3) *)

(** Modelled from the spec: the non-sequence type categories of the
    field descriptor; the engine's own declaration is not among the
    sources.  Numeric categories carry the width of the numeric type,
    the custom category carries the type's capabilities. *)
Inductive Category : Type :=
| scalar_integer (bits : Z)
| scalar_unsigned (bits : Z)
| scalar_float (bits : Z)
| scalar_boolean
| scalar_string
| opaque_passthrough
| string_parseable_custom (parse : string -> result error any)
                          (format : option (any -> result error string)).

(** Modelled from the spec: [typeCategory], with the element category of
    a sequence inside [sequence_of]; missing from the sources like the
    rest of the engine. *)
Inductive TypeCategory : Type :=
| single (c : Category)
| sequence_of (T : Category).

(** Modelled from the spec: the field descriptor of section 3. *)
Record FieldDescriptor : Type := {
  name : string;
  sourceKey : string;
  typeCategory : TypeCategory;
  attributes : list (string * string)
}.

(** Modelled from the spec: [elementCategory], "for sequence types, the
    category of each element" (section 3). *)
Definition elementCategory (d : FieldDescriptor) : option Category :=
  match typeCategory d with
  | sequence_of T => Some T
  | single _ => None
  end.

(** Modelled from the spec: the field plan, "the ordered list of field
    descriptors" (glossary). *)
Definition FieldPlan : Type := list FieldDescriptor.

(** Modelled from the spec: why a raw value did not convert
    ([ConversionError]'s underlying cause). *)
Inductive Cause : Type :=
| malformed (text : string)
| out_of_range (text : string)
| not_a_boolean (text : string)
| not_assignable
| custom (e : error).

(** Modelled from the spec: the error taxonomy of section 7, as far as
    the engine raises it itself. *)
Inductive Error : Type :=
| PlanError_not_composite
| PlanError_not_transcodable (field : string)
| ConversionError (field key : string) (cause : Cause).

(** Modelled from the spec: the source capability, [get] and the
    optional [cast]. *)
Record Source : Type := {
  get : string -> option any;
  cast : option (any -> TypeCategory -> result Cause any)
}.

(** Modelled from the spec: the sink capability over a sink state [K],
    [set] and the optional [setField]. *)
Record Sink (K : Type) : Type := {
  set : string -> any -> K -> K;
  setField : option (string -> any -> FieldDescriptor -> K -> K)
}.
Arguments set {K} _ _ _ _.
Arguments setField {K} _.

(** Modelled from the spec: a record instance, the current value of each
    field by name. *)
Abbreviation RecordValue := (gmap string any).

(** Modelled from the spec: what the spec names without fixing it, taken
    as parameters: the skip marker of a tag, the text of a raw value that
    is not text already, and the reading and writing of floating-point
    literals (on IEEE bit patterns). *)
Class Platform : Type := {
  skip_marker : string;
  format_text : any -> string;
  parse_float : Z -> string -> option Z;
  format_float : Z -> string
}.

Section engine.
Context `{Platform}.

(** *** Field plan builder (spec section 4.1) *)

(** Modelled from the spec: the category of a non-sequence declared
    type; [None] is "field type not transcodable".  The builder of
    the engine is not among the sources. *)
Definition categorize (t : Type_) : option Category :=
  match t with
  | Parseable _ parse format => Some (string_parseable_custom parse format)
  | Int_ bits => Some (scalar_integer bits)
  | Uint_ bits => Some (scalar_unsigned bits)
  | Float_ bits => Some (scalar_float bits)
  | Bool_ => Some scalar_boolean
  | String_ => Some scalar_string
  | Interface_ => Some opaque_passthrough
  | Slice_ _ => None
  | Other _ => None
  end.

(** Modelled from the spec: [typeCategory] from the declared type,
    the parse-from-string capability first, then the structure. *)
Definition classify (t : Type_) : option TypeCategory :=
  match t with
  | Parseable _ _ _ => single <$> categorize t
  | Slice_ elem => sequence_of <$> categorize elem
  | _ => single <$> categorize t
  end.

(** Modelled from the spec: the secondary tag keys of a namespace, by
    the prefix convention of [cookie-path], [cookie-secure], ... *)
Definition collect_attributes (namespace : string) (tag : StructTag)
    : list (string * string) :=
  filter (fun kv => String.prefix (namespace +:+ "-") (fst kv) = true) tag.

(** Modelled from the spec: the loop of [build] over the fields of a
    composite type. *)
Fixpoint build_fields (fields : list StructField) (namespace : string)
    : result Error FieldPlan :=
  match fields with
  | [] => Ok []
  | f :: rest =>
      match Lookup (Tag f) namespace with
      | None => build_fields rest namespace
      | Some key =>
          if (key =? skip_marker)%string then build_fields rest namespace
          else
            match classify (Typ f) with
            | None => Err (PlanError_not_transcodable (Name f))
            | Some category =>
                match build_fields rest namespace with
                | Ok plan =>
                    Ok ({| name := Name f; sourceKey := key;
                           typeCategory := category;
                           attributes := collect_attributes namespace (Tag f) |}
                        :: plan)
                | Err e => Err e
                end
            end
      end
  end.

(** Modelled from the spec: [build(recordType, namespace)]. *)
Definition build (recordType : RecordType) (namespace : string)
    : result Error FieldPlan :=
  match recordType with
  | Composite fields => build_fields fields namespace
  | NotComposite => Err PlanError_not_composite
  end.

(** *** Default conversion policy (spec section 4.2) *)

(** Modelled from the spec: the raw value "coerced to text" (section
    4.2): text is itself, anything else is formatted. *)
Definition text_of (raw : any) : string :=
  match raw with
  | Str text => text
  | _ => format_text raw
  end.

(** Modelled from the spec: conversion of one raw value to a
    non-sequence category; the engine's [DefaultCast] is called by
    scanner.go but defined outside the sources. *)
Definition convert_one (raw : any) (c : Category) : result Cause any :=
  let text := text_of raw in
  match c with
  | scalar_string => Ok (Str text)
  | scalar_integer bits =>
      match parse_signed text with
      | None => Err (malformed text)
      | Some n =>
          if (- 2 ^ (bits - 1) <=? n) && (n <? 2 ^ (bits - 1))
          then Ok (Int n) else Err (out_of_range text)
      end
  | scalar_unsigned bits =>
      match parse_unsigned text with
      | None => Err (malformed text)
      | Some n => if n <? 2 ^ bits then Ok (Uint n) else Err (out_of_range text)
      end
  | scalar_float bits =>
      match parse_float bits text with
      | None => Err (malformed text)
      | Some b => Ok (Float b)
      end
  | scalar_boolean =>
      if (text =? "true")%string then Ok (Bool true)
      else if (text =? "false")%string then Ok (Bool false)
      else Err (not_a_boolean text)
  | opaque_passthrough =>
      match raw with
      | Handle _ => Ok raw
      | _ => Err not_assignable
      end
  | string_parseable_custom parse _ =>
      match parse text with
      | Ok v => Ok v
      | Err e => Err (custom e)
      end
  end.

(** Modelled from the spec: "each substring is independently converted
    per elementCategory" (section 4.2), in order, stopping at the first
    that does not convert. *)
Fixpoint convert_each (parts : list string) (T : Category)
    : result Cause (list any) :=
  match parts with
  | [] => Ok []
  | part :: rest =>
      match convert_one (Str part) T with
      | Err cause => Err cause
      | Ok v =>
          match convert_each rest T with
          | Err cause => Err cause
          | Ok vs => Ok (v :: vs)
          end
      end
  end.

(** Modelled from the spec: [convert(raw, category, elementCategory?)]. *)
Definition convert (raw : any) (c : TypeCategory) : result Cause any :=
  match c with
  | single T => convert_one raw T
  | sequence_of T =>
      let text := text_of raw in
      if (text =? "")%string then Ok (Slice [])
      else
        match convert_each (split text) T with
        | Ok vs => Ok (Slice vs)
        | Err cause => Err cause
        end
  end.

(** Modelled from the spec: the source's own [cast] when it has one,
    "consulted before this policy is reached", else the default policy
    (sections 3 and 4.2). *)
Definition convert_with (source : Source) (raw : any) (c : TypeCategory)
    : result Cause any :=
  match cast source with
  | Some hook => hook raw c
  | None => convert raw c
  end.

(** *** Decode driver (spec section 4.3) *)

(** Modelled from the spec: [decode(source, recordInstance, plan)];
    the result is the record as the call leaves it, and the error. *)
Fixpoint decode (source : Source) (record : RecordValue) (plan : FieldPlan)
    : RecordValue * option Error :=
  match plan with
  | [] => (record, None)
  | d :: rest =>
      match get source (sourceKey d) with
      | None => decode source record rest
      | Some raw =>
          match convert_with source raw (typeCategory d) with
          | Ok v => decode source (<[name d := v]> record) rest
          | Err cause =>
              (record, Some (ConversionError (name d) (sourceKey d) cause))
          end
      end
  end.

(** Modelled from the spec: a decoder for a namespace applied to a
    record of static type [recordType] ([NewDecoder(s, ns).Decode(v)]
    in scanner.go). *)
Definition Decode (source : Source) (namespace : string)
    (recordType : RecordType) (record : RecordValue)
    : RecordValue * option Error :=
  match build recordType namespace with
  | Ok plan => decode source record plan
  | Err e => (record, Some e)
  end.

(** *** Encode driver (spec section 4.4) *)

(** Modelled from the spec: the "canonical, locale-independent textual
    representation" of a scalar (section 4.4). *)
Definition canonical (v : any) : string :=
  match v with
  | Int n => pretty n
  | Uint n => pretty n
  | Float b => format_float b
  | Bool true => "true"
  | Bool false => "false"
  | Str text => text
  | _ => format_text v
  end.

(** Modelled from the spec: the text of one value, by the field type's
    own string-producing capability when it has one, else canonical
    (section 4.4). *)
Definition format_one (v : any) (c : Category) : result Cause string :=
  match c with
  | string_parseable_custom _ (Some format) =>
      match format v with
      | Ok text => Ok text
      | Err e => Err (custom e)
      end
  | _ => Ok (canonical v)
  end.

(** Modelled from the spec: the formatted elements of a sequence, in
    order, up to the first that does not format (section 4.4). *)
Fixpoint format_each (vs : list any) (T : Category)
    : result Cause (list string) :=
  match vs with
  | [] => Ok []
  | v :: rest =>
      match format_one v T with
      | Err cause => Err cause
      | Ok text =>
          match format_each rest T with
          | Err cause => Err cause
          | Ok texts => Ok (text :: texts)
          end
      end
  end.

(** Modelled from the spec: the text of a field value, scalars in
    canonical form and sequences re-joined with the comma. *)
Definition format_field (v : any) (c : TypeCategory) : result Cause string :=
  match c, v with
  | sequence_of T, Slice vs =>
      match format_each vs T with
      | Ok texts => Ok (join texts)
      | Err cause => Err cause
      end
  | sequence_of T, _ => format_one v T
  | single T, _ => format_one v T
  end.

(** Modelled from the spec: one delivery to the sink, "(descriptor
    .sourceKey, value, descriptor)" (section 4.4). *)
Definition Delivery : Type := string * any * FieldDescriptor.

(** Modelled from the spec: the deliveries [encode] makes for a plan,
    in plan order, up to the first field that does not format. *)
Fixpoint deliveries (record : RecordValue) (plan : FieldPlan)
    : list Delivery * option Error :=
  match plan with
  | [] => ([], None)
  | d :: rest =>
      match format_field (default Nil (record !! name d)) (typeCategory d) with
      | Err cause => ([], Some (ConversionError (name d) (sourceKey d) cause))
      | Ok text =>
          let '(calls, err) := deliveries record rest in
          ((sourceKey d, Str text, d) :: calls, err)
      end
  end.

(** Modelled from the spec: "if the sink exposes the field-aware
    extension, call it ...; otherwise call the minimal set" (section 4.4). *)
Definition deliver {K} (sink : Sink K) (k : K) (call : Delivery) : K :=
  let '(key, value, d) := call in
  match setField sink with
  | Some hook => hook key value d k
  | None => set sink key value k
  end.

(** Modelled from the spec: [encode(sink, recordInstance, plan)]; the
    result is the sink as the call leaves it, and the error. *)
Definition encode {K} (sink : Sink K) (record : RecordValue)
    (plan : FieldPlan) (k : K) : K * option Error :=
  let '(calls, err) := deliveries record plan in
  (fold_left (deliver sink) calls k, err).

(** Modelled from the spec: the calls an encoder for a namespace makes
    on a record of static type [recordType]. *)
Definition Encode_deliveries (namespace : string) (recordType : RecordType)
    (record : RecordValue) : list Delivery * option Error :=
  match build recordType namespace with
  | Ok plan => deliveries record plan
  | Err e => ([], Some e)
  end.

(** Modelled from the spec: [NewEncoder(p, ns).Encode(v)]. *)
Definition Encode {K} (sink : Sink K) (namespace : string)
    (recordType : RecordType) (record : RecordValue) (k : K)
    : K * option Error :=
  let '(calls, err) := Encode_deliveries namespace recordType record in
  (fold_left (deliver sink) calls k, err).

(** *** Zero values *)

(** Modelled from the spec: the zero value a field has before any decode
    (section 4.3), by declared type. *)
Definition zero_value (t : Type_) : any :=
  match t with
  | Int_ _ => Int 0
  | Uint_ _ => Uint 0
  | Float_ _ => Float 0
  | Bool_ => Bool false
  | String_ => Str ""
  | Slice_ _ => Slice []
  | Interface_ => Nil
  | Parseable zero _ _ => zero
  | Other zero => zero
  end.

(** Modelled from the spec: "a fresh zero-valued record" (section 4.3),
    every field at its zero value. *)
Definition zero_record (fields : list StructField) : RecordValue :=
  list_to_map ((fun f => (Name f, zero_value (Typ f))) <$> fields).

End engine.
End structende.

(* ===================================================================== *)
(** ** Concrete data for the examples *)
(* ===================================================================== *)

Module Fixtures.
Import reflect http structende.

Definition upper (c : ascii) : ascii :=
  let n := nat_of_ascii c in
  if ((97 <=? n) && (n <=? 122))%nat then ascii_of_nat (n - 32) else c.

Definition lower (c : ascii) : ascii :=
  let n := nat_of_ascii c in
  if ((65 <=? n) && (n <=? 90))%nat then ascii_of_nat (n + 32) else c.

(** Upper case at the start and after each dash, lower case elsewhere. *)
Fixpoint canonical_key (start : bool) (key : string) : string :=
  match key with
  | EmptyString => EmptyString
  | String c rest =>
      String (if start then upper c else lower c)
             (canonical_key (Ascii.eqb c "-"%char) rest)
  end.

(** A stand-in for the three standard-library functions, enough to run
    the package's tests: strings format as themselves, keys of letters
    and dashes are put in canonical case, and a cookie with a name is
    written as [name=value] followed by its path and [Secure] flag. *)
Definition stdlib : Stdlib := {|
  fmt_Sprintf_s v := match v with Str text => text | _ => "%!s(?)" end;
  CanonicalMIMEHeaderKey key := canonical_key true key;
  Cookie_String c :=
    if (Name c =? "")%string then ""
    else Name c +:+ "=" +:+ Value c
         +:+ (if (Path c =? "")%string then "" else "; Path=" +:+ Path c)
         +:+ (if Secure c then "; Secure" else "")
|}.

Definition platform : Platform := {|
  skip_marker := "-";
  format_text v := match v with Str text => text | _ => "%!s(?)" end;
  parse_float _ _ := None;
  format_float _ := ""
|}.

Definition cookie (name value : string) : Cookie :=
  {| Name := name; Value := value; Path := ""; Secure := false;
     SameSite_ := 0; RawExpires := "" |}.

(** The [Role] type of the tests, with its [UnmarshalString]. *)
Definition Role : Type_ :=
  Parseable (Struct [("Name", Str "")])
            (fun text => Ok (Struct [("Name", Str text)])) None.

(** The tagged fields of the [Params] struct of the tests. *)
Definition Language : StructField :=
  {| reflect.Name := "Language"; Typ := String_;
     Tag := [("json", "-"); ("header", "accept-language")] |}.
Definition Page : StructField :=
  {| reflect.Name := "Page"; Typ := Uint_ 32;
     Tag := [("json", "-"); ("query", "page"); ("form", "page")] |}.
Definition Done : StructField :=
  {| reflect.Name := "Done"; Typ := Bool_;
     Tag := [("json", "-"); ("query", "done")] |}.
Definition Roles : StructField :=
  {| reflect.Name := "Roles"; Typ := Slice_ Role;
     Tag := [("json", "-"); ("query", "roles")] |}.
Definition Filters : StructField :=
  {| reflect.Name := "Filters"; Typ := Slice_ String_;
     Tag := [("json", "-"); ("form", "filters")] |}.
Definition Numbers : StructField :=
  {| reflect.Name := "Numbers"; Typ := Slice_ (Int_ 64);
     Tag := [("json", "-"); ("form", "numbers")] |}.
Definition Token : StructField :=
  {| reflect.Name := "Token"; Typ := String_;
     Tag := [("json", "-"); ("cookie", "token")] |}.
Definition Session : StructField :=
  {| reflect.Name := "Session"; Typ := String_;
     Tag := [("cookie", "sid"); ("cookie-path", "/app");
             ("cookie-secure", "true"); ("cookie-samesite", "strict");
             ("cookie-expires", "Wed, 21 Oct 2026 07:28:00 GMT")] |}.

Definition Params_fields : list StructField :=
  [Language; Page; Done; Roles; Filters; Numbers; Token].

Definition Params : RecordType := Composite Params_fields.

(** A source over a list of key/value pairs, without [cast]. *)
Definition source_of (values : list (string * any)) : Source :=
  {| get key := (list_to_map values : gmap string any) !! key;
     cast := None |}.

(** Stages for the pipe: each notes its number in the store; a failing
    one returns its message. *)
Definition ok_stage (n : nat) : Scanner.Scanner (list nat) string :=
  {| Scanner.Scan _ := fun log => (Returned None, (log ++ [n])%list) |}.
Definition failing_stage (n : nat) (msg : string)
    : Scanner.Scanner (list nat) string :=
  {| Scanner.Scan _ := fun log => (Returned (Some msg), (log ++ [n])%list) |}.
Definition ok_printer (n : nat) : Printer.Printer (list nat) string :=
  {| Printer.Print _ := fun log => (Returned None, (log ++ [n])%list) |}.
Definition failing_printer (n : nat) (msg : string)
    : Printer.Printer (list nat) string :=
  {| Printer.Print _ := fun log => (Returned (Some msg), (log ++ [n])%list) |}.
Definition panicking_stage (n : nat) (msg : string)
    : Scanner.Scanner (list nat) string :=
  {| Scanner.Scan _ := fun log => (Panicked msg, (log ++ [n])%list) |}.
Definition panicking_printer (n : nat) (msg : string)
    : Printer.Printer (list nat) string :=
  {| Printer.Print _ := fun log => (Panicked msg, (log ++ [n])%list) |}.

(** The characters of an HTTP token, which is what net/http accepts in a
    cookie name. *)
Definition is_token_char (c : ascii) : bool :=
  let n := nat_of_ascii c in
  ((48 <=? n) && (n <=? 57) || (65 <=? n) && (n <=? 90)
   || (97 <=? n) && (n <=? 122))%nat
  || existsb (Ascii.eqb c) (list_ascii_of_string "!#$%&'*+-.^_`|~").

Definition valid_cookie_name (name : string) : bool :=
  negb (name =? "")%string && forallb is_token_char (list_ascii_of_string name).

(** A closer stand-in for [Cookie.String]: a cookie whose name is not a
    token is refused (the empty string); otherwise [name=value], then the
    path if there is one, the [Secure] flag and the same-site mode (none
    for the zero value and the default mode).  [RawExpires] is not
    written: net/http keeps that field for cookies it has read. *)
Definition net_http : Stdlib := {|
  fmt_Sprintf_s v := match v with Str text => text | _ => "%!s(?)" end;
  CanonicalMIMEHeaderKey key := canonical_key true key;
  Cookie_String c :=
    if valid_cookie_name (Name c) then
      Name c +:+ "=" +:+ Value c
      +:+ (if (Path c =? "")%string then "" else "; Path=" +:+ Path c)
      +:+ (if Secure c then "; Secure" else "")
      +:+ (if SameSite_ c =? SameSiteNoneMode then "; SameSite=None"
           else if SameSite_ c =? SameSiteLaxMode then "; SameSite=Lax"
           else if SameSite_ c =? SameSiteStrictMode then "; SameSite=Strict"
           else "")
    else ""
|}.

(** A field whose cookie key has a space in it. *)
Definition BadName : StructField :=
  {| reflect.Name := "Token"; Typ := String_;
     Tag := [("cookie", "bad name")] |}.

(** A multipart parser over the files of a form: parsing gives the error
    it is built with, if any; a file that is not in the form is an error;
    the state is the list of the names asked for. *)
Definition form_parser (parse_error : option string)
    (form : list (string * positive))
    : Scanner.MultipartParser (list string) string :=
  {| Scanner.ParseMultipartForm _ := fun asked => (Returned parse_error, asked);
     Scanner.FormFile name := fun asked =>
       (Returned
          match (list_to_map form : gmap string positive) !! name with
          | Some h => (Handle h, None)
          | None => (Nil, Some "http: no such file")
          end,
        (asked ++ [name])%list) |}.

End Fixtures.

(* ===================================================================== *)
(** ** Properties of the cookie scanner *)
(* ===================================================================== *)

Module ScannerFacts.
Import http Scanner.

Lemma Get_range_skip (pre : list Cookie) (rest : list (option Cookie)) key :
  Forall (fun c => Name c <> key) pre ->
  Get_range ((Some <$> pre) ++ rest) key = Get_range rest key.
Proof.
  induction 1 as [|c pre Hc _ IH]; [reflexivity|].
  cbn. apply String.eqb_neq in Hc. rewrite Hc. exact IH.
Qed.

(** Running into a nil pointer before any match is a panic. *)
Lemma Get_range_nil_pointer (pre : list Cookie) rest key :
  Forall (fun c => Name c <> key) pre ->
  exists msg, Get_range ((Some <$> pre) ++ None :: rest) key = Panicked msg.
Proof.
  intros Hpre. rewrite (Get_range_skip _ _ _ Hpre). cbn. eauto.
Qed.

(** C9.  [CookieScanner.Get] returns the [Value] of the first cookie of
    the list whose [Name] is the key, and [nil] when the list has no
    cookie of that name. *)
Theorem CookieScanner_Get_first_match (cs : list Cookie) (key : string) :
  (forall pre c post,
      cs = pre ++ c :: post ->
      Forall (fun c' => Name c' <> key) pre ->
      Name c = key ->
      CookieScanner_Get (NewCookieScanner (Some <$> cs)) key
      = Returned (Str (Value c)))
  /\ (Forall (fun c => Name c <> key) cs ->
      CookieScanner_Get (NewCookieScanner (Some <$> cs)) key = Returned Nil).
Proof.
  unfold CookieScanner_Get, NewCookieScanner; cbn [cookies]. split.
  - intros pre c post -> Hpre Hc.
    rewrite fmap_app, (Get_range_skip _ _ _ Hpre). cbn.
    apply String.eqb_eq in Hc. now rewrite Hc.
  - intros Hall.
    rewrite <- (app_nil_r (Some <$> cs)), (Get_range_skip _ _ _ Hall).
    reflexivity.
Qed.

Lemma CookieScanner_Get_first_match_witness :
  CookieScanner_Get
    (NewCookieScanner
       (Some <$> [Fixtures.cookie "lang" "en"; Fixtures.cookie "token" "first";
                  Fixtures.cookie "token" "second"])) "token"
  = Returned (Str "first")
  /\ CookieScanner_Get
       (NewCookieScanner (Some <$> [Fixtures.cookie "lang" "en"])) "token"
     = Returned Nil.
Proof.
  split.
  - apply (proj1 (CookieScanner_Get_first_match
                    [Fixtures.cookie "lang" "en"; Fixtures.cookie "token" "first";
                     Fixtures.cookie "token" "second"] "token")
             [Fixtures.cookie "lang" "en"] (Fixtures.cookie "token" "first")
             [Fixtures.cookie "token" "second"]).
    + reflexivity.
    + constructor; [discriminate | constructor].
    + reflexivity.
  - apply (proj2 (CookieScanner_Get_first_match [Fixtures.cookie "lang" "en"] "token")).
    constructor; [discriminate | constructor].
Defined.

End ScannerFacts.

(* ===================================================================== *)
(** ** Properties of the pipe combinators *)
(* ===================================================================== *)

Module PipeFacts.
Import Scanner Printer.

Section pipe.
Context {St E : Type}.

Lemma PipeScanner_Scan_app (pre rest : list (Scanner St E)) v s0 s1 :
  scans_ok pre v s0 s1 ->
  PipeScanner_Scan (pre ++ rest) v s0 = PipeScanner_Scan rest v s1.
Proof.
  induction 1 as [|sc pre v s s' s'' Hsc _ IH]; [reflexivity|].
  cbn. unfold bind. rewrite Hsc. exact IH.
Qed.

Lemma PipePrinter_Print_app (pre rest : list (Printer St E)) v s0 s1 :
  prints_ok pre v s0 s1 ->
  PipePrinter_Print (pre ++ rest) v s0 = PipePrinter_Print rest v s1.
Proof.
  induction 1 as [|pr pre v s s' s'' Hpr _ IH]; [reflexivity|].
  cbn. unfold bind. rewrite Hpr. exact IH.
Qed.

Lemma PipeScanner_Scan_ok (l : list (Scanner St E)) v s0 s1 :
  scans_ok l v s0 s1 -> PipeScanner_Scan l v s0 = (Returned None, s1).
Proof.
  induction 1 as [|sc l v s s' s'' Hsc _ IH]; [reflexivity|].
  cbn. unfold bind. rewrite Hsc. exact IH.
Qed.

Lemma PipePrinter_Print_ok (l : list (Printer St E)) v s0 s1 :
  prints_ok l v s0 s1 -> PipePrinter_Print l v s0 = (Returned None, s1).
Proof.
  induction 1 as [|pr l v s s' s'' Hpr _ IH]; [reflexivity|].
  cbn. unfold bind. rewrite Hpr. exact IH.
Qed.

(** Both revisions of the printer file have the same pipe. *)
Lemma PipePrinter_Print_same (l : list (Printer St E)) v s :
  Printer1.PipePrinter_Print l v s = PipePrinter_Print l v s.
Proof.
  revert s; induction l as [|pr l IH]; intros s; [reflexivity|].
  cbn. unfold bind. destruct (Print pr v s) as [[[e|]|msg] s']; auto.
Qed.

(** The printer pipe is the scanner pipe over the same stages. *)
Lemma PipePrinter_Print_as_Scan (l : list (Printer St E)) v s :
  PipePrinter_Print l v s = PipeScanner_Scan (as_Scanner <$> l) v s.
Proof.
  revert s; induction l as [|pr l IH]; intros s; [reflexivity|].
  cbn. unfold bind. destruct (Print pr v s) as [[[e|]|msg] s']; auto.
Qed.

(** Successful stages stay successful when traced, and leave one log
    entry each, in list order. *)
Lemma scans_ok_traced (l : list (Scanner St E)) v s0 s1 i log :
  scans_ok l v s0 s1 ->
  scans_ok (traced_from i l) v (s0, log)
           (s1, log ++ invocations i (length l) v).
Proof.
  intros Hok. revert i log.
  induction Hok as [|sc l v s s' s'' Hsc _ IH]; intros i log.
  - cbn. rewrite app_nil_r. constructor.
  - cbn [traced_from]. econstructor.
    + cbn. rewrite Hsc. reflexivity.
    + specialize (IH (S i) (log ++ [(i, v)])).
      unfold invocations in *. cbn [length seq fmap list_fmap].
      rewrite <- app_assoc in IH. exact IH.
Qed.

Lemma traced_from_app (pre rest : list (Scanner St E)) i :
  traced_from i (pre ++ rest)
  = traced_from i pre ++ traced_from (i + length pre) rest.
Proof.
  revert i; induction pre as [|sc pre IH]; intros i; cbn.
  - now rewrite Nat.add_0_r.
  - rewrite IH. now rewrite Nat.add_succ_r.
Qed.

(** What a result of the scanner pipe says about its stages. *)
Lemma PipeScanner_Scan_inv (l : list (Scanner St E)) v s0 o s :
  PipeScanner_Scan l v s0 = (o, s) ->
  match o with
  | Returned None => scans_ok l v s0 s
  | _ => exists pre sc post s1,
           l = pre ++ sc :: post /\ scans_ok pre v s0 s1 /\
           Scan sc v s1 = (o, s)
  end.
Proof.
  revert s0; induction l as [|sc l IH]; intros s0; cbn.
  - intros [= <- <-]. constructor.
  - unfold bind. destruct (Scan sc v s0) as [[[e|]|msg] s'] eqn:Hsc.
    + intros [= <- <-]. exists [], sc, l, s0. repeat split; [constructor | exact Hsc].
    + intros Hrest. specialize (IH _ Hrest).
      destruct o as [[e|]|msg].
      * destruct IH as (pre & sc' & post & s1 & -> & Hpre & Hsc').
        exists (sc :: pre), sc', post, s1. repeat split; [econstructor; eauto | exact Hsc'].
      * econstructor; eauto.
      * destruct IH as (pre & sc' & post & s1 & -> & Hpre & Hsc').
        exists (sc :: pre), sc', post, s1. repeat split; [econstructor; eauto | exact Hsc'].
    + intros [= <- <-]. exists [], sc, l, s0. repeat split; [constructor | exact Hsc].
Qed.
End pipe.

(** C1.  The pipe invokes its stages in list order on the same value,
    returns the error of the first stage that fails, invoking no stage
    after it, and returns [nil] when every stage succeeds; for
    [PipeScanner.Scan] and for [PipePrinter.Print] of both revisions. *)
Theorem Pipe_first_failure_stops {St E : Type} :
  (forall (pre post : list (Scanner St E)) sc v s0 s1 s2 e,
      scans_ok pre v s0 s1 ->
      Scan sc v s1 = (Returned (Some e), s2) ->
      PipeScanner_Scan (pre ++ sc :: post) v s0 = (Returned (Some e), s2)
      /\ PipeScanner_Scan (traced_from 0 (pre ++ sc :: post)) v (s0, [])
         = (Returned (Some e), (s2, invocations 0 (S (length pre)) v)))
  /\ (forall (l : list (Scanner St E)) v s0 s1,
      scans_ok l v s0 s1 ->
      PipeScanner_Scan l v s0 = (Returned None, s1)
      /\ PipeScanner_Scan (traced_from 0 l) v (s0, [])
         = (Returned None, (s1, invocations 0 (length l) v)))
  /\ (forall (pre post : list (Printer St E)) pr v s0 s1 s2 e,
      prints_ok pre v s0 s1 ->
      Print pr v s1 = (Returned (Some e), s2) ->
      PipePrinter_Print (pre ++ pr :: post) v s0 = (Returned (Some e), s2)
      /\ Printer1.PipePrinter_Print (pre ++ pr :: post) v s0
         = (Returned (Some e), s2))
  /\ (forall (l : list (Printer St E)) v s0 s1,
      prints_ok l v s0 s1 ->
      PipePrinter_Print l v s0 = (Returned None, s1)
      /\ Printer1.PipePrinter_Print l v s0 = (Returned None, s1))
  /\ (forall (l : list (Printer St E)) v s,
      PipePrinter_Print l v s = PipeScanner_Scan (as_Scanner <$> l) v s).
Proof.
  repeat apply conj.
  - intros pre post sc v s0 s1 s2 e Hpre Hsc. split.
    + rewrite (PipeScanner_Scan_app _ _ _ _ _ Hpre). cbn. unfold bind.
      now rewrite Hsc.
    + rewrite traced_from_app.
      rewrite (PipeScanner_Scan_app _ _ _ _ _ (scans_ok_traced _ _ _ _ 0%nat [] Hpre)).
      assert (invocations 0 (S (length pre)) v
              = ([] ++ invocations 0 (length pre) v) ++ [((0 + length pre)%nat, v)])
        as -> by (unfold invocations; rewrite seq_S, fmap_app; reflexivity).
      cbn [traced_from PipeScanner_Scan]. unfold bind. cbn [Scan traced].
      rewrite Hsc. reflexivity.
  - intros l v s0 s1 Hok. split.
    + now apply PipeScanner_Scan_ok.
    + apply (PipeScanner_Scan_ok _ _ _ _ (scans_ok_traced _ _ _ _ 0%nat [] Hok)).
  - intros pre post pr v s0 s1 s2 e Hpre Hpr.
    assert (PipePrinter_Print (pre ++ pr :: post) v s0 = (Returned (Some e), s2))
      as Hfail.
    { rewrite (PipePrinter_Print_app _ _ _ _ _ Hpre). cbn. unfold bind.
      now rewrite Hpr. }
    split; [exact Hfail|].
    etransitivity; [apply PipePrinter_Print_same | exact Hfail].
  - intros l v s0 s1 Hok.
    pose proof (PipePrinter_Print_ok _ _ _ _ Hok) as Hnil.
    split; [exact Hnil|].
    etransitivity; [apply PipePrinter_Print_same | exact Hnil].
  - intros l v s. apply PipePrinter_Print_as_Scan.
Qed.

Lemma Pipe_first_failure_stops_witness :
  PipeScanner_Scan
    [Fixtures.ok_stage 1; Fixtures.failing_stage 2 "boom"; Fixtures.ok_stage 3]
    (Ptr 1) []
  = (Returned (Some "boom"), [1; 2]%nat)
  /\ PipeScanner_Scan [Fixtures.ok_stage 1; Fixtures.ok_stage 2] (Ptr 1) []
     = (Returned None, [1; 2]%nat)
  /\ PipePrinter_Print
       [Fixtures.ok_printer 1; Fixtures.failing_printer 2 "boom";
        Fixtures.ok_printer 3] (Ptr 1) []
     = (Returned (Some "boom"), [1; 2]%nat)
  /\ PipePrinter_Print [Fixtures.ok_printer 1; Fixtures.ok_printer 2] (Ptr 1) []
     = (Returned None, [1; 2]%nat).
Proof.
  destruct (@Pipe_first_failure_stops (list nat) string)
    as (Hfail & Hok & Pfail & Pok & _).
  repeat apply conj.
  - apply (Hfail [Fixtures.ok_stage 1] [Fixtures.ok_stage 3]
             (Fixtures.failing_stage 2 "boom") (Ptr 1) [] [1%nat] [1; 2]%nat "boom").
    + econstructor; [reflexivity | constructor].
    + reflexivity.
  - apply (Hok [Fixtures.ok_stage 1; Fixtures.ok_stage 2] (Ptr 1) [] [1; 2]%nat).
    econstructor; [reflexivity|]. econstructor; [reflexivity | constructor].
  - apply (Pfail [Fixtures.ok_printer 1] [Fixtures.ok_printer 3]
             (Fixtures.failing_printer 2 "boom") (Ptr 1) [] [1%nat] [1; 2]%nat "boom").
    + econstructor; [reflexivity | constructor].
    + reflexivity.
  - apply (Pok [Fixtures.ok_printer 1; Fixtures.ok_printer 2] (Ptr 1) [] [1; 2]%nat).
    econstructor; [reflexivity|]. econstructor; [reflexivity | constructor].
Defined.

End PipeFacts.

(* ===================================================================== *)
(** ** Properties of the header and cookie sinks *)
(* ===================================================================== *)

Module PrinterFacts.
Import reflect http.

Section sinks.
Context `{Stdlib}.

(** Reading back a key that was just set on a header map. *)
Lemma Header_Values_Set key value (h : Header) :
  Header_Values key (Header_Set key value h) = [value].
Proof. unfold Header_Values, Header_Set. now rewrite lookup_insert_eq. Qed.

Lemma Header_Values_Add key value (h : Header) :
  Header_Values key (Header_Add key value h) = Header_Values key h ++ [value].
Proof. unfold Header_Values, Header_Add. now rewrite lookup_insert_eq. Qed.

(** In the revision without the status directive, [Status] is a header
    like any other. *)
Lemma HeaderPrinter1_Set_any_key {W} `{ResponseWriter W} (w : W) key value :
  Printer1.HeaderPrinter_Set key value w
  = (Returned tt, Header_mutate (Header_Set key (fmt_Sprintf_s value)) w).
Proof. reflexivity. Qed.
End sinks.



(** C10.  [HeaderPrinter.Set] panics on key ["Status"] with a value
    that is not an [int]; on ["Status"] with an [int], and on every
    other key, it returns. *)
Theorem HeaderPrinter_Set_panics_on_bad_status `{Stdlib} {W}
    `{ResponseWriter W} (w : W) :
  (forall value, (forall n, value <> Int n) ->
      Printer.HeaderPrinter_Set "Status" value w
      = (Panicked "expected int for Status header", w))
  /\ (forall n, returns (Printer.HeaderPrinter_Set "Status" (Int n)) w)
  /\ (forall key value, key <> "Status" ->
      returns (Printer.HeaderPrinter_Set key value) w).
Proof.
  repeat apply conj.
  - intros value Hint. destruct value; try reflexivity.
    now contradiction (Hint n).
  - intros n. eexists _, _. reflexivity.
  - intros key value Hkey. unfold Printer.HeaderPrinter_Set.
    apply String.eqb_neq in Hkey. rewrite Hkey. eexists _, _. reflexivity.
Qed.

Lemma HeaderPrinter_Set_panics_on_bad_status_witness :
  panics (Printer.HeaderPrinter_Set (H := Fixtures.stdlib) "Status" (Str "404"))
         NewResponseWriter
  /\ returns (Printer.HeaderPrinter_Set (H := Fixtures.stdlib) "X-Trace" (Int 7))
             NewResponseWriter.
Proof.
  destruct (@HeaderPrinter_Set_panics_on_bad_status Fixtures.stdlib TestWriter _
              NewResponseWriter) as (Hbad & _ & Hother).
  split.
  - eexists _, _. apply (Hbad (Str "404")). intros n. discriminate.
  - apply (Hother "X-Trace" (Int 7)). discriminate.
Defined.

(** C8.  The cookie sink's [Set] does nothing: the response writer is
    the same after the call, in both revisions. *)
Theorem CookiePrinter_Set_noop :
  (forall W (w : W) key value,
      Printer.CookiePrinter_Set key value w = (Returned tt, w)
      /\ Printer1.CookiePrinter_Set key value w = (Returned tt, w))
  /\ (forall (w : TestWriter) key value,
      let w' := snd (Printer.CookiePrinter_Set key value w) in
      let w1 := snd (Printer1.CookiePrinter_Set key value w) in
      (header w' = header w /\ buffer w' = buffer w /\ status w' = status w)
      /\ (header w1 = header w /\ buffer w1 = buffer w /\ status w1 = status w)).
Proof. split; intros; cbn; auto. Qed.

(** C6, as amended.  [CookiePrinter.SetField] hands exactly one cookie to
    [http.SetCookie]: named by the key, with the [%s] text of the value,
    with the [cookie-path] tag as path or ["/"] without that tag,
    secure exactly when the [cookie-secure] tag is ["true"], and with
    the [cookie-expires] tag, as written, in its [RawExpires] field, or
    the empty string without that tag.  What reaches the response is
    net/http's doing: one [Set-Cookie] value when it serialises the
    cookie, none when it refuses it. *)
Theorem CookiePrinter_SetField_attributes `{Stdlib} {W} `{ResponseWriter W}
    (w : W) (key : string) (value : any) (field : StructField) :
  exists cookie : Cookie,
    Printer.CookiePrinter_SetField key value field w
    = (Returned tt, SetCookie cookie w)
    /\ Name cookie = key
    /\ Value cookie = fmt_Sprintf_s value
    /\ Path cookie = default "/" (Lookup (Tag field) "cookie-path")
    /\ Secure cookie
       = bool_decide (Lookup (Tag field) "cookie-secure" = Some "true")
    /\ RawExpires cookie = default "" (Lookup (Tag field) "cookie-expires")
    /\ forall tw : TestWriter,
         Header_Values "Set-Cookie"
           (header (snd (Printer.CookiePrinter_SetField key value field tw)))
         = Header_Values "Set-Cookie" (header tw)
           ++ (if (Cookie_String cookie =? "")%string then []
               else [Cookie_String cookie]).
Proof.
  unfold Printer.CookiePrinter_SetField.
  eexists. split; [reflexivity|]. cbn [Name Value Path Secure RawExpires].
  repeat apply conj.
  - reflexivity.
  - reflexivity.
  - now destruct (Lookup (Tag field) "cookie-path").
  - destruct (Lookup (Tag field) "cookie-secure") as [securestr|]; [|reflexivity].
    destruct (String.eqb_spec securestr "true") as [->|Hne].
    + symmetry. now apply bool_decide_eq_true.
    + symmetry. apply bool_decide_eq_false. congruence.
  - now destruct (Lookup (Tag field) "cookie-expires").
  - intros tw. unfold modify, SetCookie. cbn [snd].
    match goal with
    | |- context [Cookie_String ?c] => generalize (Cookie_String c)
    end.
    intros v. destruct (v =? "")%string.
    + now rewrite app_nil_r.
    + cbn. apply Header_Values_Add.
Qed.

(** C6 as first stated does not hold: it has every encoded field emit
    exactly one cookie, with the raw expiry of the tag.  A field whose
    cookie key is not a token (here with a space in it) emits none, the
    writer being left as it was; and for a field with a [cookie-expires]
    tag the one value emitted carries no expiry. *)
Lemma CookiePrinter_SetField_may_emit_no_cookie :
  Header_Values (H := Fixtures.net_http) "Set-Cookie"
    (header (snd (Printer.CookiePrinter_SetField (H := Fixtures.net_http)
                    "bad name" (Str "access-token") Fixtures.BadName
                    NewResponseWriter)))
  = []
  /\ snd (Printer.CookiePrinter_SetField (H := Fixtures.net_http)
           "bad name" (Str "access-token") Fixtures.BadName NewResponseWriter)
     = NewResponseWriter
  /\ Lookup (Tag Fixtures.Session) "cookie-expires"
     = Some "Wed, 21 Oct 2026 07:28:00 GMT"
  /\ Header_Values (H := Fixtures.net_http) "Set-Cookie"
       (header (snd (Printer.CookiePrinter_SetField (H := Fixtures.net_http)
                       "sid" (Str "s3cr3t") Fixtures.Session NewResponseWriter)))
     = ["sid=s3cr3t; Path=/app; Secure; SameSite=Strict"].
Proof. repeat split. Qed.

(** C7.  With a [cookie-samesite] tag, the cookie's same-site mode is
    Lax for ["lax"], Strict for ["strict"], None for ["none"] and the
    default mode for any other text; in both revisions. *)
Theorem CookiePrinter_SetField_samesite `{Stdlib} {W} `{ResponseWriter W}
    (w : W) (key : string) (value : any) (field : StructField)
    (samesitestr : string) :
  Lookup (Tag field) "cookie-samesite" = Some samesitestr ->
  exists cookie cookie1 : Cookie,
    Printer.CookiePrinter_SetField key value field w
    = (Returned tt, SetCookie cookie w)
    /\ Printer1.CookiePrinter_SetField key value field w
       = (Returned tt, SetCookie cookie1 w)
    /\ SameSite_ cookie = SameSite_ cookie1
    /\ (samesitestr = "lax" -> SameSite_ cookie = SameSiteLaxMode)
    /\ (samesitestr = "strict" -> SameSite_ cookie = SameSiteStrictMode)
    /\ (samesitestr = "none" -> SameSite_ cookie = SameSiteNoneMode)
    /\ (samesitestr <> "lax" -> samesitestr <> "strict" ->
        samesitestr <> "none" -> SameSite_ cookie = SameSiteDefaultMode).
Proof.
  intros Htag.
  unfold Printer.CookiePrinter_SetField, Printer1.CookiePrinter_SetField.
  rewrite Htag. eexists _, _.
  split; [reflexivity|]. split; [reflexivity|]. cbn [SameSite_].
  split; [reflexivity|].
  repeat apply conj.
  - now intros ->.
  - now intros ->.
  - now intros ->.
  - intros Hlax Hstrict Hnone.
    apply String.eqb_neq in Hlax, Hstrict, Hnone.
    now rewrite Hlax, Hstrict, Hnone.
Qed.

Lemma CookiePrinter_SetField_samesite_witness :
  exists cookie : Cookie,
    Printer.CookiePrinter_SetField (H := Fixtures.stdlib) "sid" (Str "s3cr3t")
      Fixtures.Session NewResponseWriter
    = (Returned tt, SetCookie (H := Fixtures.stdlib) cookie NewResponseWriter)
    /\ SameSite_ cookie = SameSiteStrictMode.
Proof.
  destruct (@CookiePrinter_SetField_samesite Fixtures.stdlib TestWriter _
              NewResponseWriter "sid" (Str "s3cr3t") Fixtures.Session "strict"
              eq_refl)
    as (cookie & _ & Hset & _ & _ & _ & Hstrict & _).
  exists cookie. split; [exact Hset | exact (Hstrict eq_refl)].
Defined.

(** The cookie of the pipe test: [token=access-token; Path=/]. *)
Example CookiePrinter_SetField_token :
  header (snd (Printer.CookiePrinter_SetField (H := Fixtures.stdlib) "token"
                 (Str "access-token") Fixtures.Token NewResponseWriter))
  = {["Set-Cookie" := ["token=access-token; Path=/"]]}.
Proof. reflexivity. Qed.

(** Without a [cookie-samesite] tag the mode is the zero value of
    [http.SameSite], which is none of the named modes. *)
Lemma CookiePrinter_SetField_samesite_absent `{Stdlib} {W} `{ResponseWriter W}
    (w : W) key value field :
  Lookup (Tag field) "cookie-samesite" = None ->
  exists cookie : Cookie,
    Printer.CookiePrinter_SetField key value field w
    = (Returned tt, SetCookie cookie w)
    /\ SameSite_ cookie = 0.
Proof.
  intros Htag. unfold Printer.CookiePrinter_SetField. rewrite Htag.
  eexists. split; reflexivity.
Qed.

End PrinterFacts.

(* ===================================================================== *)
(** ** Properties of the transcoding engine *)
(* ===================================================================== *)

Module EngineFacts.
Import reflect structende.

(** *** Splitting and joining on commas *)

Lemma split_nonempty text : split text <> [].
Proof.
  destruct text as [|c rest]; cbn; [discriminate|].
  destruct (Ascii.eqb c comma); [discriminate|].
  destruct (split rest); discriminate.
Qed.

Lemma join_cons_char c first others :
  join (String c first :: others) = String c (join (first :: others)).
Proof. destruct others; reflexivity. Qed.

(** Joining what was split gives the text back, for every text. *)
Lemma join_split text : join (split text) = text.
Proof.
  induction text as [|c rest IH]; [reflexivity|].
  cbn [split]. destruct (Ascii.eqb c comma) eqn:Hc.
  - apply Ascii.eqb_eq in Hc as ->.
    destruct (split rest) as [|first others] eqn:Hsplit.
    + now apply split_nonempty in Hsplit.
    + change (join ("" :: first :: others))
        with (String comma (join (first :: others))).
      now rewrite IH.
  - destruct (split rest) as [|first others] eqn:Hsplit.
    + now apply split_nonempty in Hsplit.
    + rewrite join_cons_char. now rewrite IH.
Qed.

Lemma split_no_comma text : has_comma text = false -> split text = [text].
Proof.
  induction text as [|c rest IH]; [reflexivity|].
  cbn. destruct (Ascii.eqb c comma); [discriminate|].
  cbn. intros Hrest. now rewrite (IH Hrest).
Qed.

Lemma split_app_comma part rest :
  has_comma part = false ->
  split (part +:+ String comma rest) = part :: split rest.
Proof.
  induction part as [|c part IH]; [reflexivity|].
  change (String c part +:+ String comma rest)
    with (String c (part +:+ String comma rest)).
  cbn [has_comma split]. destruct (Ascii.eqb c comma); [discriminate|].
  cbn [orb]. intros Hpart. now rewrite (IH Hpart).
Qed.

(** Splitting what was joined gives the parts back, when no part has a
    comma and there is a part at all. *)
Lemma split_join parts :
  parts <> [] ->
  Forall (fun part => has_comma part = false) parts ->
  split (join parts) = parts.
Proof.
  intros Hne Hparts. induction Hparts as [|part rest Hpart Hrest IH];
    [congruence|].
  destruct rest as [|next rest].
  - cbn. now apply split_no_comma.
  - change (join (part :: next :: rest))
      with (part +:+ String comma (join (next :: rest))).
    rewrite (split_app_comma _ _ Hpart). f_equal. apply IH. discriminate.
Qed.

(** Only the empty list and the list of one empty text join to the
    empty text. *)
Lemma join_empty parts : join parts = "" -> parts = [] \/ parts = [""].
Proof.
  destruct parts as [|part [|next rest]]; cbn; auto.
  - intros ->. auto.
  - destruct part; discriminate.
Qed.

Section engine.
Context `{Platform}.

Lemma convert_each_strings parts :
  convert_each parts scalar_string = Ok (Str <$> parts).
Proof.
  induction parts as [|part rest IH]; [reflexivity|].
  cbn. cbn in IH. now rewrite IH.
Qed.

Lemma format_each_strings parts :
  format_each (Str <$> parts) scalar_string = Ok parts.
Proof.
  induction parts as [|part rest IH]; [reflexivity|].
  cbn. cbn in IH. now rewrite IH.
Qed.

(** Decoding a text into a sequence of strings and formatting the
    sequence again gives the text. *)
Lemma convert_format_strings text :
  exists v,
    convert (Str text) (sequence_of scalar_string) = Ok v
    /\ format_field v (sequence_of scalar_string) = Ok text.
Proof.
  unfold convert. cbn [text_of].
  destruct (String.eqb_spec text "") as [->|Hne].
  - exists (Slice []). split; reflexivity.
  - rewrite convert_each_strings. eexists. split; [reflexivity|].
    cbn [format_field]. rewrite format_each_strings.
    now rewrite join_split.
Qed.

(** *** Frame lemmas for the drivers *)

Lemma decode_frame (source : Source) (plan : FieldPlan)
    (record : RecordValue) (n : string) :
  n ∉ name <$> plan ->
  fst (decode source record plan) !! n = record !! n.
Proof.
  revert record. induction plan as [|d rest IH]; intros record Hn;
    [reflexivity|].
  rewrite fmap_cons, not_elem_of_cons in Hn. destruct Hn as [Hd Hrest].
  cbn [decode]. destruct (get source (sourceKey d)) as [raw|]; [|auto].
  destruct (convert_with source raw (typeCategory d)) as [v|cause];
    [|reflexivity].
  rewrite (IH _ Hrest). now apply lookup_insert_ne.
Qed.

Lemma decode_app (source : Source) (pre rest : FieldPlan)
    (record r1 : RecordValue) :
  decode source record pre = (r1, None) ->
  decode source record (pre ++ rest) = decode source r1 rest.
Proof.
  revert record. induction pre as [|d pre IH]; intros record; cbn.
  - now intros [= ->].
  - destruct (get source (sourceKey d)) as [raw|]; [|apply IH].
    destruct (convert_with source raw (typeCategory d)) as [v|cause];
      [apply IH | discriminate].
Qed.

(** A field the plan converts keeps the converted value to the end of
    a successful pass, when no other descriptor has its name. *)
Lemma decode_assigned (source : Source) (plan : FieldPlan)
    (record r1 : RecordValue) d raw v :
  decode source record plan = (r1, None) ->
  NoDup (name <$> plan) ->
  d ∈ plan ->
  get source (sourceKey d) = Some raw ->
  convert_with source raw (typeCategory d) = Ok v ->
  r1 !! name d = Some v.
Proof.
  revert record. induction plan as [|d0 rest IH]; intros record Hrun Hnodup Hd Hget Hconv.
  - now apply elem_of_nil in Hd.
  - rewrite fmap_cons in Hnodup. apply NoDup_cons in Hnodup as [Hfresh Hnodup].
    apply elem_of_cons in Hd as [<-|Hd].
    + cbn [decode] in Hrun. rewrite Hget, Hconv in Hrun.
      pose proof (decode_frame source rest (<[name d := v]> record) (name d) Hfresh) as Hframe.
      rewrite Hrun in Hframe. cbn [fst] in Hframe.
      rewrite Hframe. apply lookup_insert_eq.
    + cbn [decode] in Hrun.
      destruct (get source (sourceKey d0)) as [raw0|]; [|eauto].
      destruct (convert_with source raw0 (typeCategory d0)) as [v0|cause];
        [eauto | discriminate].
Qed.

Lemma deliveries_in_plan (record : RecordValue) (plan : FieldPlan) c :
  c ∈ fst (deliveries record plan) -> snd c ∈ plan.
Proof.
  induction plan as [|d rest IH]; cbn [deliveries].
  - intros Hc. now apply elem_of_nil in Hc.
  - destruct (format_field _ _) as [text|cause].
    + destruct (deliveries record rest) as [calls err]. cbn [fst] in *.
      intros [->|Hc]%elem_of_cons; [left | right; auto].
    + intros Hc. now apply elem_of_nil in Hc.
Qed.

(** Every descriptor of a built plan comes from a field whose tag for
    the namespace is present and is not the skip marker. *)
Lemma build_fields_origin fields namespace plan d :
  build_fields fields namespace = Ok plan ->
  d ∈ plan ->
  exists f, f ∈ fields /\ name d = Name f
            /\ Lookup (Tag f) namespace = Some (sourceKey d)
            /\ sourceKey d <> skip_marker.
Proof.
  revert plan. induction fields as [|f rest IH]; intros plan; cbn [build_fields].
  - intros [= <-] Hd. now apply elem_of_nil in Hd.
  - destruct (Lookup (Tag f) namespace) as [key|] eqn:Htag.
    + destruct (String.eqb_spec key skip_marker) as [->|Hkey].
      * intros Hrest Hd. destruct (IH _ Hrest Hd) as (f' & Hf' & Hrest').
        exists f'. split; [now right | exact Hrest'].
      * destruct (classify (Typ f)) as [category|]; [|discriminate].
        destruct (build_fields rest namespace) as [plan'|e]; [|discriminate].
        intros [= <-] [->|Hd]%elem_of_cons.
        -- exists f. cbn. repeat split; [now left | exact Htag | exact Hkey].
        -- destruct (IH _ eq_refl Hd) as (f' & Hf' & Hrest').
           exists f'. split; [now right | exact Hrest'].
    + intros Hrest Hd. destruct (IH _ Hrest Hd) as (f' & Hf' & Hrest').
      exists f'. split; [now right | exact Hrest'].
Qed.

Lemma field_by_name (fields : list StructField) f f' :
  NoDup (Name <$> fields) -> f ∈ fields -> f' ∈ fields ->
  Name f = Name f' -> f = f'.
Proof.
  induction fields as [|f0 rest IH]; intros Hnodup Hf Hf' Hname.
  - now apply elem_of_nil in Hf.
  - rewrite fmap_cons in Hnodup. apply NoDup_cons in Hnodup as [Hfresh Hnodup].
    apply elem_of_cons in Hf as [->|Hf]; apply elem_of_cons in Hf' as [->|Hf'].
    + reflexivity.
    + exfalso. apply Hfresh. rewrite Hname. now apply list_elem_of_fmap_2.
    + exfalso. apply Hfresh. rewrite <- Hname. now apply list_elem_of_fmap_2.
    + now apply IH.
Qed.

(** A field without tag for the namespace, or tagged with the skip
    marker, has no descriptor in the plan. *)
Lemma build_excludes fields namespace plan f :
  NoDup (Name <$> fields) -> f ∈ fields ->
  Lookup (Tag f) namespace = None
  \/ Lookup (Tag f) namespace = Some skip_marker ->
  build (Composite fields) namespace = Ok plan ->
  Name f ∉ name <$> plan.
Proof.
  intros Hnodup Hf Hskip Hbuild (d & Hname & Hd)%list_elem_of_fmap.
  destruct (build_fields_origin _ _ _ _ Hbuild Hd) as (f' & Hf' & Hname' & Htag & Hkey).
  assert (f = f') as <-
    by (apply (field_by_name fields); auto; congruence).
  destruct Hskip as [Hnone|Hmark]; congruence.
Qed.

Lemma zero_record_lookup fields f :
  NoDup (Name <$> fields) -> f ∈ fields ->
  zero_record fields !! Name f = Some (zero_value (Typ f)).
Proof.
  intros Hnodup Hf. unfold zero_record.
  apply elem_of_list_to_map_1.
  - now rewrite <- list_fmap_compose.
  - apply (list_elem_of_fmap_2 (fun f => (Name f, zero_value (Typ f)))), Hf.
Qed.
End engine.

(** C3.  For a sequence field, the empty text decodes to the sequence
    of length zero; for a sequence of strings, ["a,b,c"] decodes to
    ["a"], ["b"], ["c"] in that order and that sequence encodes to
    ["a,b,c"] again; for any element category, ["a,b,c"] decodes to the
    three converted elements in that order; more generally every text
    decoded by the driver into a sequence of strings is delivered
    unchanged when the field is encoded, and parts without commas survive
    joining and decoding. *)
Theorem sequence_round_trip `{Platform} :
  (forall T, convert (Str "") (sequence_of T) = Ok (Slice []))
  /\ convert (Str "a,b,c") (sequence_of scalar_string)
     = Ok (Slice [Str "a"; Str "b"; Str "c"])
  /\ format_field (Slice [Str "a"; Str "b"; Str "c"]) (sequence_of scalar_string)
     = Ok "a,b,c"
  /\ (forall T va vb vc,
        convert_one (Str "a") T = Ok va ->
        convert_one (Str "b") T = Ok vb ->
        convert_one (Str "c") T = Ok vc ->
        convert (Str "a,b,c") (sequence_of T) = Ok (Slice [va; vb; vc]))
  /\ (forall text, exists v,
        convert (Str text) (sequence_of scalar_string) = Ok v
        /\ format_field v (sequence_of scalar_string) = Ok text)
  /\ (forall (source : Source) (record : RecordValue) d text,
        cast source = None ->
        get source (sourceKey d) = Some (Str text) ->
        typeCategory d = sequence_of scalar_string ->
        exists v,
          decode source record [d] = (<[name d := v]> record, None)
          /\ deliveries (<[name d := v]> record) [d]
             = ([(sourceKey d, Str text, d)], None))
  /\ (forall parts,
        parts <> [""] ->
        Forall (fun part => has_comma part = false) parts ->
        convert (Str (join parts)) (sequence_of scalar_string)
        = Ok (Slice (Str <$> parts))).
Proof.
  repeat apply conj.
  - reflexivity.
  - reflexivity.
  - reflexivity.
  - intros T va vb vc Ha Hb Hc. unfold convert. cbn [text_of].
    change ("a,b,c" =? "")%string with false.
    change (split "a,b,c") with ["a"; "b"; "c"].
    cbn [convert_each]. now rewrite Ha, Hb, Hc.
  - apply convert_format_strings.
  - intros source record d text Hcast Hget Hcat.
    destruct (convert_format_strings text) as (v & Hconv & Hfmt).
    exists v. cbn [decode deliveries]. unfold convert_with.
    rewrite Hget, Hcast, Hcat, Hconv. split; [reflexivity|].
    rewrite lookup_insert_eq. cbn [from_option id]. now rewrite Hfmt.
  - intros parts Hparts Hcommas. unfold convert. cbn [text_of].
    destruct (String.eqb_spec (join parts) "") as [Hempty|Hne].
    + apply join_empty in Hempty as [->| ->]; [reflexivity | congruence].
    + rewrite split_join; [now rewrite convert_each_strings | | exact Hcommas].
      intros ->. now apply Hne.
Qed.

Lemma sequence_round_trip_witness :
  (exists v,
      decode (H := Fixtures.platform)
        (Fixtures.source_of [("filters", Str "sepia,monochrome")]) ∅
        [{| name := "Filters"; sourceKey := "filters";
            typeCategory := sequence_of scalar_string; attributes := [] |}]
      = (<["Filters" := v]> ∅, None)
      /\ deliveries (H := Fixtures.platform) (<["Filters" := v]> ∅)
           [{| name := "Filters"; sourceKey := "filters";
               typeCategory := sequence_of scalar_string; attributes := [] |}]
         = ([("filters", Str "sepia,monochrome",
              {| name := "Filters"; sourceKey := "filters";
                 typeCategory := sequence_of scalar_string;
                 attributes := [] |})], None))
  /\ convert (H := Fixtures.platform) (Str (join ["a"; "b"; "c"]))
       (sequence_of scalar_string)
     = Ok (Slice [Str "a"; Str "b"; Str "c"])
  /\ convert (H := Fixtures.platform) (Str "a,b,c")
       (sequence_of (string_parseable_custom
                       (fun text => Ok (Struct [("Name", Str text)])) None))
     = Ok (Slice [Struct [("Name", Str "a")]; Struct [("Name", Str "b")];
                  Struct [("Name", Str "c")]]).
Proof.
  destruct (@sequence_round_trip Fixtures.platform)
    as (_ & _ & _ & Hthree & _ & Hdriver & Hparts).
  repeat apply conj.
  - apply (Hdriver (Fixtures.source_of [("filters", Str "sepia,monochrome")]) ∅
             {| name := "Filters"; sourceKey := "filters";
                typeCategory := sequence_of scalar_string; attributes := [] |}
             "sepia,monochrome"); reflexivity.
  - apply (Hparts ["a"; "b"; "c"]).
    + discriminate.
    + repeat constructor.
  - apply Hthree; reflexivity.
Defined.

(** Without the guard on the empty text, the one-part list of the empty
    text would come back; with it, that list does not survive a round
    trip. *)
Example empty_part_not_round_trip :
  convert (H := Fixtures.platform) (Str (join [""])) (sequence_of scalar_string)
  = Ok (Slice []).
Proof. reflexivity. Qed.

(** C4.  When the raw value of a field does not convert, [decode] stops
    there: it returns the error with the field name, the source key and
    the cause, whatever descriptors follow; the record is as the
    descriptors before the failing one left it, so every field they
    assigned is still set and no other field was touched. *)
Theorem decode_stops_at_conversion_failure `{Platform}
    (source : Source) (record r1 : RecordValue) (pre post : FieldPlan)
    (d : FieldDescriptor) (raw : any) (cause : Cause) :
  decode source record pre = (r1, None) ->
  get source (sourceKey d) = Some raw ->
  convert_with source raw (typeCategory d) = Err cause ->
  decode source record (pre ++ d :: post)
  = (r1, Some (ConversionError (name d) (sourceKey d) cause))
  /\ (forall d' raw' v,
        NoDup (name <$> pre) ->
        d' ∈ pre ->
        get source (sourceKey d') = Some raw' ->
        convert_with source raw' (typeCategory d') = Ok v ->
        r1 !! name d' = Some v)
  /\ (forall n, n ∉ name <$> pre -> r1 !! n = record !! n).
Proof.
  intros Hpre Hget Hconv. repeat apply conj.
  - rewrite (decode_app _ _ _ _ _ Hpre). cbn [decode].
    now rewrite Hget, Hconv.
  - intros d' raw' v Hnodup Hd' Hget' Hconv'.
    exact (decode_assigned _ _ _ _ _ _ _ Hpre Hnodup Hd' Hget' Hconv').
  - intros n Hn. pose proof (decode_frame source pre record n Hn) as Hframe.
    now rewrite Hpre in Hframe.
Qed.

Lemma decode_stops_at_conversion_failure_witness :
  let source := Fixtures.source_of
                  [("page", Str "2"); ("done", Str "maybe"); ("roles", Str "admin")] in
  let page := {| name := "Page"; sourceKey := "page";
                 typeCategory := single (scalar_unsigned 32); attributes := [] |} in
  let done := {| name := "Done"; sourceKey := "done";
                 typeCategory := single scalar_boolean; attributes := [] |} in
  let roles := {| name := "Roles"; sourceKey := "roles";
                  typeCategory := sequence_of scalar_string; attributes := [] |} in
  decode (H := Fixtures.platform) source ∅ [page; done; roles]
  = (<["Page" := Uint 2]> ∅,
     Some (ConversionError "Done" "done" (not_a_boolean "maybe")))
  /\ (<["Page" := Uint 2]> ∅ : RecordValue) !! "Page" = Some (Uint 2).
Proof.
  intros source page done roles.
  destruct (@decode_stops_at_conversion_failure Fixtures.platform source ∅
              (<["Page" := Uint 2]> ∅) [page] [roles] done (Str "maybe")
              (not_a_boolean "maybe") eq_refl eq_refl eq_refl)
    as (Hstop & Hset & _).
  split; [exact Hstop|].
  apply (Hset page (Str "2") (Uint 2)).
  - repeat constructor. intros Hin. now apply elem_of_nil in Hin.
  - now left.
  - reflexivity.
  - reflexivity.
Defined.

(** C5.  A field whose tag for the namespace is absent or is the skip
    marker is left as it was by a decode from any source, so a field at
    its zero value stays there, and no delivery of an encode is for
    that field. *)
Theorem skipped_field_untouched `{Platform}
    (fields : list StructField) (namespace : string) (f : StructField)
    (source : Source) (record : RecordValue) :
  NoDup (Name <$> fields) ->
  f ∈ fields ->
  Lookup (Tag f) namespace = None
  \/ Lookup (Tag f) namespace = Some skip_marker ->
  fst (Decode source namespace (Composite fields) record) !! Name f
  = record !! Name f
  /\ fst (Decode source namespace (Composite fields) (zero_record fields))
     !! Name f = Some (zero_value (Typ f))
  /\ (forall c, c ∈ fst (Encode_deliveries namespace (Composite fields) record) ->
        name (snd c) <> Name f)
  /\ (forall K (sink : Sink K) (k : K),
        Encode sink namespace (Composite fields) record k
        = (fold_left (deliver sink)
             (fst (Encode_deliveries namespace (Composite fields) record)) k,
           snd (Encode_deliveries namespace (Composite fields) record))).
Proof.
  intros Hnodup Hf Hskip.
  assert (forall r, fst (Decode source namespace (Composite fields) r) !! Name f
                    = r !! Name f) as Hdecode.
  { intros r. unfold Decode.
    destruct (build (Composite fields) namespace) as [plan|e] eqn:Hbuild;
      [|reflexivity].
    apply decode_frame. eapply build_excludes; eauto. }
  repeat apply conj.
  - apply Hdecode.
  - rewrite Hdecode. now apply zero_record_lookup.
  - intros c Hc Hname. unfold Encode_deliveries in Hc.
    destruct (build (Composite fields) namespace) as [plan|e] eqn:Hbuild.
    + apply deliveries_in_plan in Hc.
      eapply build_excludes; eauto.
      rewrite <- Hname. now apply list_elem_of_fmap_2.
    + now apply elem_of_nil in Hc.
  - intros K sink k. unfold Encode.
    now destruct (Encode_deliveries namespace (Composite fields) record).
Qed.

Lemma skipped_field_untouched_witness :
  let source := Fixtures.source_of
                  [("token", Str "abc"); ("accept-language", Str "en");
                   ("-", Str "x")] in
  (* [Token] has no [header] tag *)
  (fst (Decode (H := Fixtures.platform) source "header" Fixtures.Params
          (zero_record Fixtures.Params_fields)) !! "Token" = Some (Str "")
   /\ forall c,
        c ∈ fst (Encode_deliveries (H := Fixtures.platform) "header"
                   Fixtures.Params (zero_record Fixtures.Params_fields)) ->
        name (snd c) <> "Token")
  (* [Language] is tagged [json:"-"] *)
  /\ fst (Decode (H := Fixtures.platform) source "json" Fixtures.Params
            (zero_record Fixtures.Params_fields)) !! "Language" = Some (Str "").
Proof.
  intros source.
  assert (NoDup (Name <$> Fixtures.Params_fields)) as Hnodup
    by (apply (bool_decide_unpack _); vm_compute; exact I).
  split.
  - destruct (@skipped_field_untouched Fixtures.platform Fixtures.Params_fields
                "header" Fixtures.Token source
                (zero_record Fixtures.Params_fields) Hnodup)
      as (_ & Hzero & Hcalls & _).
    + repeat constructor.
    + left. reflexivity.
    + split; [exact Hzero | exact Hcalls].
  - destruct (@skipped_field_untouched Fixtures.platform Fixtures.Params_fields
                "json" Fixtures.Language source
                (zero_record Fixtures.Params_fields) Hnodup)
      as (_ & Hzero & _).
    + repeat constructor.
    + right. reflexivity.
    + exact Hzero.
Defined.

(** *** The scanner tests, replayed on the engine *)

Example query_scanner_test :
  Decode (H := Fixtures.platform)
    (Fixtures.source_of [("page", Str "2"); ("done", Str "true");
                         ("roles", Str "admin,user")])
    "query" Fixtures.Params ∅
  = (<["Roles" := Slice [Struct [("Name", Str "admin")];
                         Struct [("Name", Str "user")]]]>
       (<["Done" := Bool true]> (<["Page" := Uint 2]> ∅)), None).
Proof. reflexivity. Qed.

Example form_scanner_test :
  Decode (H := Fixtures.platform)
    (Fixtures.source_of [("filters", Str "sepia,monochrome");
                         ("numbers", Str "6,7,8")])
    "form" Fixtures.Params ∅
  = (<["Numbers" := Slice [Int 6; Int 7; Int 8]]>
       (<["Filters" := Slice [Str "sepia"; Str "monochrome"]]> ∅), None).
Proof. reflexivity. Qed.

Example unsigned_field_rejects_letters :
  Decode (H := Fixtures.platform) (Fixtures.source_of [("page", Str "abc")])
    "query" Fixtures.Params ∅
  = (∅, Some (ConversionError "Page" "page" (malformed "abc"))).
Proof. reflexivity. Qed.

End EngineFacts.

(* ===================================================================== *)
(** ** More on the scanners: lookups, nil pointers, multipart files *)
(* ===================================================================== *)

Module ScannerExtras.
Import http url Scanner.

(** After [values.Set(key, value)], as the tests prepare their input, a
    query or form scanner reads [value] under [key], and reads every
    other key as before. *)
Theorem Values_Set_then_Get (values : Values) (key value : string) :
  QueryScanner_Get (NewQueryScanner (Values_Set key value values)) key
  = Returned (Str value)
  /\ FormScanner_Get (NewFormScanner (Some (Values_Set key value values))) key
     = Returned (Str value)
  /\ (forall other, other <> key ->
        QueryScanner_Get (NewQueryScanner (Values_Set key value values)) other
        = QueryScanner_Get (NewQueryScanner values) other
        /\ FormScanner_Get (NewFormScanner (Some (Values_Set key value values))) other
           = FormScanner_Get (NewFormScanner (Some values)) other).
Proof.
  unfold QueryScanner_Get, FormScanner_Get, NewQueryScanner, NewFormScanner,
    Values_Get, Values_Set; cbn.
  repeat apply conj.
  - now rewrite lookup_insert_eq.
  - now rewrite lookup_insert_eq.
  - intros other Hother. rewrite lookup_insert_ne by congruence. auto.
Qed.

Lemma Values_Set_then_Get_witness :
  QueryScanner_Get
    (NewQueryScanner (Values_Set "done" "true" {["page" := ["2"]]})) "page"
  = Returned (Str "2").
Proof.
  destruct (Values_Set_then_Get {["page" := ["2"]]} "done" "true")
    as (_ & _ & Hother).
  destruct (Hother "page") as [Hquery _]; [discriminate|].
  rewrite Hquery. reflexivity.
Defined.

(** [CookieScanner.Get] stops at the first cookie of that name: whatever
    follows it in the list, nil pointers included, is never looked at.  A
    nil pointer that comes before any match is dereferenced, and the call
    panics. *)
Theorem CookieScanner_Get_stops_at_match (pre : list Cookie)
    (rest : list (option Cookie)) (key : string) :
  Forall (fun c => Name c <> key) pre ->
  (forall c, Name c = key ->
      CookieScanner_Get (NewCookieScanner ((Some <$> pre) ++ Some c :: rest)) key
      = Returned (Str (Value c)))
  /\ CookieScanner_Get (NewCookieScanner ((Some <$> pre) ++ None :: rest)) key
     = Panicked nil_dereference.
Proof.
  intros Hpre. unfold CookieScanner_Get, NewCookieScanner; cbn [cookies].
  split.
  - intros c Hc. rewrite (ScannerFacts.Get_range_skip _ _ _ Hpre). cbn.
    apply String.eqb_eq in Hc. now rewrite Hc.
  - rewrite (ScannerFacts.Get_range_skip _ _ _ Hpre). reflexivity.
Qed.

Lemma CookieScanner_Get_stops_at_match_witness :
  CookieScanner_Get
    (NewCookieScanner [Some (Fixtures.cookie "lang" "en");
                       Some (Fixtures.cookie "token" "t1"); None]) "token"
  = Returned (Str "t1")
  /\ CookieScanner_Get
       (NewCookieScanner [Some (Fixtures.cookie "lang" "en"); None;
                          Some (Fixtures.cookie "token" "t1")]) "token"
     = Panicked nil_dereference.
Proof.
  assert (Forall (fun c => Name c <> "token") [Fixtures.cookie "lang" "en"]) as Hpre
    by (constructor; [discriminate | constructor]).
  split.
  - apply (proj1 (CookieScanner_Get_stops_at_match
                    [Fixtures.cookie "lang" "en"] [None] "token" Hpre)
             (Fixtures.cookie "token" "t1")).
    reflexivity.
  - apply (proj2 (CookieScanner_Get_stops_at_match
                    [Fixtures.cookie "lang" "en"]
                    [Some (Fixtures.cookie "token" "t1")] "token" Hpre)).
Defined.

End ScannerExtras.

(* ===================================================================== *)
(** ** Collecting multipart files *)
(* ===================================================================== *)

Module MultipartExtras.
Import Scanner.

(** The map built by assigning [files[name] = file] for each pair in
    order. *)
Lemma assign_frame (fs : list (string * any)) (files : gmap string any) key :
  key ∉ fs.*1 ->
  fold_left (fun m nf => <[nf.1 := nf.2]> m) fs files !! key = files !! key.
Proof.
  revert files. induction fs as [|[name file] fs IH]; intros files Hkey;
    [reflexivity|].
  rewrite fmap_cons, not_elem_of_cons in Hkey. destruct Hkey as [Hname Hrest].
  cbn. rewrite (IH _ Hrest). now apply lookup_insert_ne.
Qed.

Lemma assign_last (pre post : list (string * any)) (files : gmap string any)
    key file :
  key ∉ post.*1 ->
  fold_left (fun m nf => <[nf.1 := nf.2]> m) (pre ++ (key, file) :: post) files
  !! key = Some file.
Proof.
  intros Hpost. rewrite fold_left_app. cbn.
  rewrite (assign_frame _ _ _ Hpost). apply lookup_insert_eq.
Qed.

Section parser.
Context {P E : Type}.

Lemma forms_ok_names (p : MultipartParser P E) names s fs s' :
  forms_ok p names s fs s' -> fs.*1 = names.
Proof. induction 1; cbn; congruence. Qed.

Lemma FromParser_range_ok (p : MultipartParser P E) names s fs s' files :
  forms_ok p names s fs s' ->
  FromParser_range p names files s
  = (Returned (Some {| Files := fold_left (fun m nf => <[nf.1 := nf.2]> m) fs files |},
               None), s').
Proof.
  intros Hok. revert files.
  induction Hok as [|name rest file s s' fs s'' Hfile _ IH]; intros files;
    [reflexivity|].
  cbn. unfold bind. rewrite Hfile. apply IH.
Qed.

Lemma FromParser_range_app (p : MultipartParser P E) pre rest s fs s' files :
  forms_ok p pre s fs s' ->
  FromParser_range p (pre ++ rest) files s
  = FromParser_range p rest (fold_left (fun m nf => <[nf.1 := nf.2]> m) fs files) s'.
Proof.
  intros Hok. revert files.
  induction Hok as [|name pre file s s' fs s'' Hfile _ IH]; intros files;
    [reflexivity|].
  cbn. unfold bind. rewrite Hfile. apply IH.
Qed.
End parser.

(** When [ParseMultipartForm] fails, [MultipartValuesFromParser] returns
    that error and no values, and never asks the parser for a file: the
    parser is left as the failed parse left it, whatever the names. *)
Theorem FromParser_parse_error {P E : Type} (p : MultipartParser P E)
    (size : Z) (names : list string) (s s' : P) (e : E) :
  ParseMultipartForm p size s = (Returned (Some e), s') ->
  MultipartValuesFromParser p size names s = (Returned (None, Some e), s').
Proof.
  intros Hparse. unfold MultipartValuesFromParser, bind. now rewrite Hparse.
Qed.

Lemma FromParser_parse_error_witness :
  MultipartValuesFromParser
    (Fixtures.form_parser (Some "multipart: NextPart: EOF") [("document", 1%positive)])
    1024 ["document"] []
  = (Returned (None, Some "multipart: NextPart: EOF"), []).
Proof.
  apply (FromParser_parse_error
           (Fixtures.form_parser (Some "multipart: NextPart: EOF")
              [("document", 1%positive)])
           1024 ["document"] [] [] "multipart: NextPart: EOF").
  reflexivity.
Defined.

(** When the form parses and the files of some first names are found, but
    [FormFile] fails for the next name, [MultipartValuesFromParser]
    returns that error and no values at all (the files found so far are
    dropped), and asks for none of the names after it. *)
Theorem FromParser_first_missing_file {P E : Type} (p : MultipartParser P E)
    (size : Z) (pre post : list string) (name : string)
    (s s1 s2 s3 : P) (fs : list (string * any)) (file : any) (e : E) :
  ParseMultipartForm p size s = (Returned None, s1) ->
  forms_ok p pre s1 fs s2 ->
  FormFile p name s2 = (Returned (file, Some e), s3) ->
  MultipartValuesFromParser p size (pre ++ name :: post) s
  = (Returned (None, Some e), s3).
Proof.
  intros Hparse Hpre Hfile. unfold MultipartValuesFromParser, bind.
  rewrite Hparse, (FromParser_range_app p pre (name :: post) _ _ _ _ Hpre).
  cbn. unfold bind. now rewrite Hfile.
Qed.

Lemma FromParser_first_missing_file_witness :
  MultipartValuesFromParser
    (Fixtures.form_parser None [("document", 1%positive); ("photo", 2%positive)])
    1024 ["document"; "avatar"; "photo"] []
  = (Returned (None, Some "http: no such file"), ["document"; "avatar"]).
Proof.
  apply (FromParser_first_missing_file
           (Fixtures.form_parser None
              [("document", 1%positive); ("photo", 2%positive)])
           1024 ["document"] ["photo"] "avatar"
           [] [] ["document"] ["document"; "avatar"]
           [("document", Handle 1)] Nil "http: no such file").
  - reflexivity.
  - econstructor; [reflexivity | constructor].
  - reflexivity.
Defined.

(** When the form parses and [FormFile] finds a file for every name,
    [MultipartValuesFromParser] returns values and no error, and
    [MultipartValues.Get] on them gives, for a name asked for, the file of
    the last time it was asked, and [nil] for every key that was not
    among the names, even if the form has such a file. *)
Theorem FromParser_collects_named_files {P E : Type} (p : MultipartParser P E)
    (size : Z) (names : list string) (s s1 s2 : P) (fs : list (string * any)) :
  ParseMultipartForm p size s = (Returned None, s1) ->
  forms_ok p names s1 fs s2 ->
  exists values : MultipartValues,
    MultipartValuesFromParser p size names s = (Returned (Some values, None), s2)
    /\ (forall before name file after,
          fs = before ++ (name, file) :: after ->
          name ∉ after.*1 ->
          MultipartValues_Get values name = file)
    /\ (forall key, key ∉ names -> MultipartValues_Get values key = Nil)
    /\ (forall key, key ∈ names -> is_Some (Files values !! key)).
Proof.
  intros Hparse Hok. eexists. split.
  - unfold MultipartValuesFromParser, bind. rewrite Hparse.
    apply (FromParser_range_ok p names s1 fs s2 ∅ Hok).
  - unfold MultipartValues_Get; cbn [Files]. repeat apply conj.
    + intros before name file after -> Hafter.
      now rewrite (assign_last _ _ _ _ _ Hafter).
    + intros key Hkey. rewrite assign_frame.
      * now rewrite lookup_empty.
      * now rewrite (forms_ok_names _ _ _ _ _ Hok).
    + intros key Hkey. rewrite <- (forms_ok_names _ _ _ _ _ Hok) in Hkey.
      apply list_elem_of_fmap in Hkey as ([name file] & -> & Hin).
      clear Hok. induction fs as [|[n f] fs IH] using rev_ind;
        [now apply elem_of_nil in Hin|].
      rewrite fold_left_app. cbn.
      destruct (decide (n = name)) as [->|Hne].
      * rewrite lookup_insert_eq. eauto.
      * rewrite lookup_insert_ne by exact Hne. apply IH.
        apply elem_of_app in Hin as [Hin|Hin]; [exact Hin|].
        apply list_elem_of_singleton in Hin. congruence.
Qed.

Lemma FromParser_collects_named_files_witness :
  exists values : MultipartValues,
    MultipartValuesFromParser
      (Fixtures.form_parser None [("document", 1%positive); ("photo", 2%positive)])
      1024 ["document"] []
    = (Returned (Some values, None), ["document"])
    /\ MultipartValues_Get values "document" = Handle 1
    /\ MultipartValues_Get values "photo" = Nil.
Proof.
  destruct (FromParser_collects_named_files
              (Fixtures.form_parser None
                 [("document", 1%positive); ("photo", 2%positive)])
              1024 ["document"] [] [] ["document"] [("document", Handle 1)])
    as (values & Hrun & Hlast & Hother & _).
  - reflexivity.
  - econstructor; [reflexivity | constructor].
  - exists values. split; [exact Hrun|]. split.
    + apply (Hlast [] "document" (Handle 1) []); [reflexivity|].
      intros Hin. now apply elem_of_nil in Hin.
    + apply Hother. intros Hin.
      apply list_elem_of_singleton in Hin. discriminate.
Defined.

End MultipartExtras.

(* ===================================================================== *)
(** ** More on the pipes: results, panics, nesting *)
(* ===================================================================== *)

Module PipeExtras.
Import Scanner Printer.

Section pipe.
Context {St E : Type}.

(** A pipe over two lists runs the first list and, only if that returns
    [nil], the second from where the first left the store. *)
Lemma PipeScanner_Scan_seq (l1 l2 : list (Scanner St E)) v s :
  PipeScanner_Scan (l1 ++ l2) v s
  = match PipeScanner_Scan l1 v s with
    | (Returned None, s') => PipeScanner_Scan l2 v s'
    | other => other
    end.
Proof.
  revert s; induction l1 as [|sc l1 IH]; intros s; [reflexivity|].
  cbn. unfold bind. destruct (Scan sc v s) as [[[e|]|msg] s']; auto.
Qed.

Lemma PipePrinter_Print_seq (l1 l2 : list (Printer St E)) v s :
  PipePrinter_Print (l1 ++ l2) v s
  = match PipePrinter_Print l1 v s with
    | (Returned None, s') => PipePrinter_Print l2 v s'
    | other => other
    end.
Proof.
  revert s; induction l1 as [|pr l1 IH]; intros s; [reflexivity|].
  cbn. unfold bind. destruct (Print pr v s) as [[[e|]|msg] s']; auto.
Qed.

Lemma PipePrinter_Print_inv (l : list (Printer St E)) v s0 o s :
  PipePrinter_Print l v s0 = (o, s) ->
  match o with
  | Returned None => prints_ok l v s0 s
  | _ => exists pre pr post s1,
           l = pre ++ pr :: post /\ prints_ok pre v s0 s1 /\
           Print pr v s1 = (o, s)
  end.
Proof.
  revert s0; induction l as [|pr l IH]; intros s0; cbn.
  - intros [= <- <-]. constructor.
  - unfold bind. destruct (Print pr v s0) as [[[e|]|msg] s'] eqn:Hpr.
    + intros [= <- <-]. exists [], pr, l, s0. repeat split; [constructor | exact Hpr].
    + intros Hrest. specialize (IH _ Hrest).
      destruct o as [[e|]|msg].
      * destruct IH as (pre & pr' & post & s1 & -> & Hpre & Hpr').
        exists (pr :: pre), pr', post, s1. repeat split; [econstructor; eauto | exact Hpr'].
      * econstructor; eauto.
      * destruct IH as (pre & pr' & post & s1 & -> & Hpre & Hpr').
        exists (pr :: pre), pr', post, s1. repeat split; [econstructor; eauto | exact Hpr'].
    + intros [= <- <-]. exists [], pr, l, s0. repeat split; [constructor | exact Hpr].
Qed.
End pipe.

(** Whatever a pipe returns comes from its stages: a [nil] result means
    that every stage was run, in order, and returned [nil]; an error [e]
    means that some stage returned exactly [e] after all stages before it
    returned [nil].  The pipe adds no error of its own and alters none. *)
Theorem Pipe_result_comes_from_stages {St E : Type} :
  (forall (l : list (Scanner St E)) v s0 s,
      PipeScanner_Scan l v s0 = (Returned None, s) -> scans_ok l v s0 s)
  /\ (forall (l : list (Scanner St E)) v s0 s e,
      PipeScanner_Scan l v s0 = (Returned (Some e), s) ->
      exists pre sc post s1,
        l = pre ++ sc :: post /\ scans_ok pre v s0 s1
        /\ Scan sc v s1 = (Returned (Some e), s))
  /\ (forall (l : list (Printer St E)) v s0 s,
      PipePrinter_Print l v s0 = (Returned None, s) -> prints_ok l v s0 s)
  /\ (forall (l : list (Printer St E)) v s0 s e,
      PipePrinter_Print l v s0 = (Returned (Some e), s) ->
      exists pre pr post s1,
        l = pre ++ pr :: post /\ prints_ok pre v s0 s1
        /\ Print pr v s1 = (Returned (Some e), s)).
Proof.
  repeat apply conj.
  - intros l v s0 s Hrun. exact (PipeFacts.PipeScanner_Scan_inv l v s0 _ s Hrun).
  - intros l v s0 s e Hrun. exact (PipeFacts.PipeScanner_Scan_inv l v s0 _ s Hrun).
  - intros l v s0 s Hrun. exact (PipePrinter_Print_inv l v s0 _ s Hrun).
  - intros l v s0 s e Hrun. exact (PipePrinter_Print_inv l v s0 _ s Hrun).
Qed.

Lemma Pipe_result_comes_from_stages_witness :
  exists pre sc post s1,
    [Fixtures.ok_stage 1; Fixtures.failing_stage 2 "boom"; Fixtures.ok_stage 3]
    = pre ++ sc :: post
    /\ scans_ok pre (Ptr 1) [] s1
    /\ Scan sc (Ptr 1) s1 = (Returned (Some "boom"), [1; 2]%nat).
Proof.
  destruct (@Pipe_result_comes_from_stages (list nat) string) as (_ & Herr & _).
  apply (Herr [Fixtures.ok_stage 1; Fixtures.failing_stage 2 "boom";
               Fixtures.ok_stage 3] (Ptr 1) [] [1; 2]%nat "boom").
  reflexivity.
Defined.

(** A panic of a stage goes through the pipe: when the stages before it
    returned [nil] and it panics, the pipe panics with the same message,
    and no stage after it is run. *)
Theorem Pipe_panic_propagates {St E : Type} :
  (forall (pre post : list (Scanner St E)) sc v s0 s1 s2 msg,
      scans_ok pre v s0 s1 ->
      Scan sc v s1 = (Panicked msg, s2) ->
      PipeScanner_Scan (pre ++ sc :: post) v s0 = (Panicked msg, s2))
  /\ (forall (pre post : list (Printer St E)) pr v s0 s1 s2 msg,
      prints_ok pre v s0 s1 ->
      Print pr v s1 = (Panicked msg, s2) ->
      PipePrinter_Print (pre ++ pr :: post) v s0 = (Panicked msg, s2)).
Proof.
  split.
  - intros pre post sc v s0 s1 s2 msg Hpre Hsc.
    rewrite (PipeFacts.PipeScanner_Scan_app _ _ _ _ _ Hpre). cbn. unfold bind.
    now rewrite Hsc.
  - intros pre post pr v s0 s1 s2 msg Hpre Hpr.
    rewrite (PipeFacts.PipePrinter_Print_app _ _ _ _ _ Hpre). cbn. unfold bind.
    now rewrite Hpr.
Qed.

Lemma Pipe_panic_propagates_witness :
  PipePrinter_Print
    [Fixtures.ok_printer 1;
     Fixtures.panicking_printer 2 "expected int for Status header";
     Fixtures.ok_printer 3] (Ptr 1) []
  = (Panicked "expected int for Status header", [1; 2]%nat).
Proof.
  destruct (@Pipe_panic_propagates (list nat) string) as (_ & Hprint).
  apply (Hprint [Fixtures.ok_printer 1] [Fixtures.ok_printer 3]
           (Fixtures.panicking_printer 2 "expected int for Status header")
           (Ptr 1) [] [1%nat] [1; 2]%nat).
  - econstructor; [reflexivity | constructor].
  - reflexivity.
Defined.

(** Pipes nest: a pipe used as a stage of another pipe behaves like its
    stages written out in place, so a pipe of pipes is the pipe of all
    their stages in order; results, stores and panics are the same. *)
Theorem Pipe_nested_is_flat {St E : Type} :
  (forall (pipes : list (list (Scanner St E))) v s,
      PipeScanner_Scan (PipeScanner_as_Scanner <$> pipes) v s
      = PipeScanner_Scan (concat pipes) v s)
  /\ (forall (pipes : list (list (Printer St E))) v s,
      PipePrinter_Print (PipePrinter_as_Printer <$> pipes) v s
      = PipePrinter_Print (concat pipes) v s)
  /\ (forall (before inner after : list (Scanner St E)) v s,
      PipeScanner_Scan (before ++ PipeScanner_as_Scanner inner :: after) v s
      = PipeScanner_Scan (before ++ inner ++ after) v s).
Proof.
  repeat apply conj.
  - intros pipes v. induction pipes as [|l pipes IH]; intros s; [reflexivity|].
    cbn [fmap list_fmap concat]. rewrite PipeScanner_Scan_seq.
    cbn [PipeScanner_Scan]. unfold bind. cbn [Scan PipeScanner_as_Scanner].
    destruct (PipeScanner_Scan l v s) as [[[e|]|msg] s']; auto.
  - intros pipes v. induction pipes as [|l pipes IH]; intros s; [reflexivity|].
    cbn [fmap list_fmap concat]. rewrite PipePrinter_Print_seq.
    cbn [PipePrinter_Print]. unfold bind. cbn [Print PipePrinter_as_Printer].
    destruct (PipePrinter_Print l v s) as [[[e|]|msg] s']; auto.
  - intros before inner after v s.
    rewrite !PipeScanner_Scan_seq.
    destruct (PipeScanner_Scan before v s) as [[[e|]|msg] s']; try reflexivity.
    rewrite PipeScanner_Scan_seq.
    cbn [PipeScanner_Scan]. unfold bind. cbn [Scan PipeScanner_as_Scanner].
    destruct (PipeScanner_Scan inner v s') as [[[e|]|msg] s'']; reflexivity.
Qed.

End PipeExtras.

(* ===================================================================== *)
(** ** More on the sinks: reading back, overwriting, cookies piling up *)
(* ===================================================================== *)

Module PrinterExtras.
Import reflect http Scanner.

Section sinks.
Context `{Stdlib}.

(** On the test writer, a header key other than [Status] only changes the
    header map. *)
Lemma HeaderPrinter_Set_on_writer (w : TestWriter) key value :
  key <> "Status" ->
  Printer.HeaderPrinter_Set key value w
  = (Returned tt,
     {| header := Header_Set key (fmt_Sprintf_s value) (header w);
        buffer := buffer w; status := status w |}).
Proof.
  intros Hkey. unfold Printer.HeaderPrinter_Set.
  apply String.eqb_neq in Hkey. now rewrite Hkey.
Qed.

(** On the test writer, [SetField] only changes the header map, by adding
    the serialised cookie under [Set-Cookie] unless it is empty. *)
Lemma CookiePrinter_SetField_on_writer (w : TestWriter) key value field :
  exists cookie : Cookie,
    Name cookie = key /\ Value cookie = fmt_Sprintf_s value
    /\ Printer.CookiePrinter_SetField key value field w
       = (Returned tt,
          {| header :=
               if (Cookie_String cookie =? "")%string then header w
               else Header_Add "Set-Cookie" (Cookie_String cookie) (header w);
             buffer := buffer w; status := status w |}).
Proof.
  unfold Printer.CookiePrinter_SetField. cbn zeta.
  match goal with
  | |- context [SetCookie ?c] => exists c
  end.
  split; [reflexivity|]. split; [reflexivity|].
  unfold modify, SetCookie.
  match goal with
  | |- context [Cookie_String ?c] => generalize (Cookie_String c)
  end.
  intros v. destruct (v =? "")%string; [now destruct w | reflexivity].
Qed.
End sinks.

(** What [HeaderPrinter.Set] writes, [HeaderScanner.Get] reads back: after
    setting a key other than [Status] on the test writer, a header
    scanner over the writer's headers returns the [%s] text of the value,
    under that key and under every key with the same canonical form.  In
    the revision without status directive this holds for every key. *)
Theorem HeaderPrinter_Set_read_back `{Stdlib} (w : TestWriter)
    (key key' : string) (value : any) :
  CanonicalMIMEHeaderKey key' = CanonicalMIMEHeaderKey key ->
  (key <> "Status" ->
   HeaderScanner_Get
     (NewHeaderScanner (Some (header (snd (Printer.HeaderPrinter_Set key value w)))))
     key'
   = Returned (Str (fmt_Sprintf_s value)))
  /\ HeaderScanner_Get
       (NewHeaderScanner (Some (header (snd (Printer1.HeaderPrinter_Set key value w)))))
       key'
     = Returned (Str (fmt_Sprintf_s value)).
Proof.
  intros Hcanon. split.
  - intros Hkey. rewrite (HeaderPrinter_Set_on_writer w key value Hkey).
    unfold HeaderScanner_Get, NewHeaderScanner, Header_Get, Header_Set.
    cbn [snd header HeaderScanner_Header].
    now rewrite Hcanon, lookup_insert_eq.
  - unfold Printer1.HeaderPrinter_Set, modify.
    unfold HeaderScanner_Get, NewHeaderScanner, Header_Get, Header_Set.
    cbn [snd header HeaderScanner_Header Header_mutate TestWriter_ResponseWriter].
    now rewrite Hcanon, lookup_insert_eq.
Qed.

Lemma HeaderPrinter_Set_read_back_witness :
  HeaderScanner_Get (H := Fixtures.stdlib)
    (NewHeaderScanner
       (Some (header (snd (Printer.HeaderPrinter_Set (H := Fixtures.stdlib)
                             "accept-language" (Str "en") NewResponseWriter)))))
    "Accept-Language"
  = Returned (Str "en").
Proof.
  apply (proj1 (@HeaderPrinter_Set_read_back Fixtures.stdlib NewResponseWriter
                  "accept-language" "Accept-Language" (Str "en") eq_refl)).
  discriminate.
Defined.

(** Setting a header again replaces it: of two calls of
    [HeaderPrinter.Set] with keys of the same canonical form (neither
    being [Status]), only the second shows in the writer. *)
Theorem HeaderPrinter_Set_last_wins `{Stdlib} (w : TestWriter)
    (key1 key2 : string) (value1 value2 : any) :
  key1 <> "Status" -> key2 <> "Status" ->
  CanonicalMIMEHeaderKey key1 = CanonicalMIMEHeaderKey key2 ->
  snd (Printer.HeaderPrinter_Set key2 value2
         (snd (Printer.HeaderPrinter_Set key1 value1 w)))
  = snd (Printer.HeaderPrinter_Set key2 value2 w).
Proof.
  intros Hkey1 Hkey2 Hcanon.
  rewrite (HeaderPrinter_Set_on_writer w key1 value1 Hkey1). cbn [snd].
  rewrite !(HeaderPrinter_Set_on_writer _ key2 value2 Hkey2). cbn.
  unfold Header_Set. rewrite Hcanon. now rewrite insert_insert_eq.
Qed.

Lemma HeaderPrinter_Set_last_wins_witness :
  header (snd (Printer.HeaderPrinter_Set (H := Fixtures.stdlib) "X-Trace" (Str "b")
                 (snd (Printer.HeaderPrinter_Set (H := Fixtures.stdlib) "x-trace"
                         (Str "a") NewResponseWriter))))
  = {["X-Trace" := ["b"]]}.
Proof.
  rewrite (@HeaderPrinter_Set_last_wins Fixtures.stdlib NewResponseWriter
             "x-trace" "X-Trace" (Str "a") (Str "b")).
  - reflexivity.
  - discriminate.
  - discriminate.
  - reflexivity.
Defined.

(** Headers of different canonical keys do not disturb each other: the
    two calls of [HeaderPrinter.Set] can be made in either order, and
    after both each key reads its own value. *)
Theorem HeaderPrinter_Set_independent `{Stdlib} (w : TestWriter)
    (key1 key2 : string) (value1 value2 : any) :
  key1 <> "Status" -> key2 <> "Status" ->
  CanonicalMIMEHeaderKey key1 <> CanonicalMIMEHeaderKey key2 ->
  let w12 := snd (Printer.HeaderPrinter_Set key2 value2
                    (snd (Printer.HeaderPrinter_Set key1 value1 w))) in
  let w21 := snd (Printer.HeaderPrinter_Set key1 value1
                    (snd (Printer.HeaderPrinter_Set key2 value2 w))) in
  w12 = w21
  /\ Header_Values key1 (header w12) = [fmt_Sprintf_s value1]
  /\ Header_Values key2 (header w12) = [fmt_Sprintf_s value2].
Proof.
  intros Hkey1 Hkey2 Hcanon. cbn zeta.
  rewrite (HeaderPrinter_Set_on_writer w key1 value1 Hkey1).
  rewrite (HeaderPrinter_Set_on_writer w key2 value2 Hkey2). cbn [snd].
  rewrite (HeaderPrinter_Set_on_writer _ key2 value2 Hkey2).
  rewrite (HeaderPrinter_Set_on_writer _ key1 value1 Hkey1). cbn.
  unfold Header_Set, Header_Values. repeat apply conj.
  - f_equal. now apply insert_insert_ne.
  - rewrite lookup_insert_ne by congruence. now rewrite lookup_insert_eq.
  - now rewrite lookup_insert_eq.
Qed.

Lemma HeaderPrinter_Set_independent_witness :
  header (snd (Printer.HeaderPrinter_Set (H := Fixtures.stdlib) "etag" (Str "v1")
                 (snd (Printer.HeaderPrinter_Set (H := Fixtures.stdlib)
                         "accept-language" (Str "en") NewResponseWriter))))
  = header (snd (Printer.HeaderPrinter_Set (H := Fixtures.stdlib)
                   "accept-language" (Str "en")
                   (snd (Printer.HeaderPrinter_Set (H := Fixtures.stdlib) "etag"
                           (Str "v1") NewResponseWriter)))).
Proof.
  destruct (@HeaderPrinter_Set_independent Fixtures.stdlib NewResponseWriter
              "accept-language" "etag" (Str "en") (Str "v1")) as (Hsame & _).
  - discriminate.
  - discriminate.
  - discriminate.
  - now rewrite Hsame.
Defined.

(** Cookies pile up: two calls of [CookiePrinter.SetField] leave, under
    [Set-Cookie], what was there before followed by the first cookie and
    then the second, each as net/http serialises it (a cookie that
    serialises to the empty string leaves nothing).  A second cookie of
    the same name does not replace the first. *)
Theorem CookiePrinter_SetField_appends `{Stdlib} (w : TestWriter)
    (key1 key2 : string) (value1 value2 : any) (field1 field2 : StructField) :
  exists cookie1 cookie2 : Cookie,
    Name cookie1 = key1 /\ Value cookie1 = fmt_Sprintf_s value1
    /\ Name cookie2 = key2 /\ Value cookie2 = fmt_Sprintf_s value2
    /\ Header_Values "Set-Cookie"
         (header (snd (Printer.CookiePrinter_SetField key2 value2 field2
                         (snd (Printer.CookiePrinter_SetField key1 value1 field1 w)))))
       = Header_Values "Set-Cookie" (header w)
         ++ (if (Cookie_String cookie1 =? "")%string then []
             else [Cookie_String cookie1])
         ++ (if (Cookie_String cookie2 =? "")%string then []
             else [Cookie_String cookie2]).
Proof.
  destruct (CookiePrinter_SetField_on_writer w key1 value1 field1)
    as (cookie1 & Hname1 & Hvalue1 & Hrun1).
  rewrite Hrun1. cbn [snd].
  match goal with
  | |- context [Printer.CookiePrinter_SetField key2 value2 field2 ?w1] =>
      destruct (CookiePrinter_SetField_on_writer w1 key2 value2 field2)
        as (cookie2 & Hname2 & Hvalue2 & Hrun2)
  end.
  rewrite Hrun2. cbn [snd header].
  exists cookie1, cookie2. repeat (split; [assumption|]).
  destruct (Cookie_String cookie1 =? "")%string,
           (Cookie_String cookie2 =? "")%string;
    rewrite ?PrinterFacts.Header_Values_Add, ?app_nil_r, <- ?app_assoc;
    reflexivity.
Qed.

(** [CookiePrinter.SetField] touches nothing but the [Set-Cookie] header:
    on the test writer every header of another canonical key, the body
    and the status are as before. *)
Theorem CookiePrinter_SetField_frame `{Stdlib} (w : TestWriter)
    (key : string) (value : any) (field : StructField) (other : string) :
  CanonicalMIMEHeaderKey other <> CanonicalMIMEHeaderKey "Set-Cookie" ->
  let w' := snd (Printer.CookiePrinter_SetField key value field w) in
  header w' !! CanonicalMIMEHeaderKey other
  = header w !! CanonicalMIMEHeaderKey other
  /\ buffer w' = buffer w
  /\ status w' = status w.
Proof.
  intros Hother. cbn zeta.
  destruct (CookiePrinter_SetField_on_writer w key value field)
    as (cookie & _ & _ & Hrun).
  rewrite Hrun. cbn [snd header buffer status]. repeat apply conj; try reflexivity.
  destruct (Cookie_String cookie =? "")%string; [reflexivity|].
  unfold Header_Add. now rewrite lookup_insert_ne by congruence.
Qed.

Lemma CookiePrinter_SetField_frame_witness :
  header (snd (Printer.CookiePrinter_SetField (H := Fixtures.stdlib) "token"
                 (Str "access-token") Fixtures.Token
                 {| header := {["Accept-Language" := ["en"]]}; buffer := "{}";
                    status := 200 |}))
  !! "Accept-Language" = Some ["en"].
Proof.
  destruct (@CookiePrinter_SetField_frame Fixtures.stdlib
              {| header := {["Accept-Language" := ["en"]]}; buffer := "{}";
                 status := 200 |}
              "token" (Str "access-token") Fixtures.Token "accept-language")
    as (Hheader & _).
  - discriminate.
  - exact Hheader.
Defined.

(** The header sink and the cookie sink can run in either order: setting
    a header whose canonical key is not [Set-Cookie] (and which is not the
    [Status] directive) before or after [CookiePrinter.SetField] leaves
    the same writer. *)
Theorem header_and_cookie_sinks_commute `{Stdlib} (w : TestWriter)
    (hkey : string) (hvalue : any)
    (ckey : string) (cvalue : any) (field : StructField) :
  hkey <> "Status" ->
  CanonicalMIMEHeaderKey hkey <> CanonicalMIMEHeaderKey "Set-Cookie" ->
  snd (Printer.CookiePrinter_SetField ckey cvalue field
         (snd (Printer.HeaderPrinter_Set hkey hvalue w)))
  = snd (Printer.HeaderPrinter_Set hkey hvalue
           (snd (Printer.CookiePrinter_SetField ckey cvalue field w))).
Proof.
  intros Hkey Hcanon.
  rewrite !(HeaderPrinter_Set_on_writer _ hkey hvalue Hkey). cbn [snd].
  unfold Printer.CookiePrinter_SetField, modify, SetCookie. cbn zeta.
  match goal with
  | |- context [Cookie_String ?c] => generalize (Cookie_String c)
  end.
  intros v. destruct (v =? "")%string; cbn; [reflexivity|].
  f_equal. unfold Header_Set, Header_Add.
  rewrite lookup_insert_ne by congruence.
  now apply insert_insert_ne.
Qed.

Lemma header_and_cookie_sinks_commute_witness :
  snd (Printer.CookiePrinter_SetField (H := Fixtures.stdlib) "token"
         (Str "access-token") Fixtures.Token
         (snd (Printer.HeaderPrinter_Set (H := Fixtures.stdlib) "accept-language"
                 (Str "en") NewResponseWriter)))
  = {| header := {["Accept-Language" := ["en"];
                   "Set-Cookie" := ["token=access-token; Path=/"]]};
       buffer := ""; status := 200 |}.
Proof.
  rewrite (@header_and_cookie_sinks_commute Fixtures.stdlib NewResponseWriter
             "accept-language" (Str "en") "token" (Str "access-token")
             Fixtures.Token).
  - reflexivity.
  - discriminate.
  - discriminate.
Defined.

(** The two revisions of the printer file differ only in the status
    directive and the cookie expiry: [HeaderPrinter.Set] is the same on
    every key but [Status], [CookiePrinter.SetField] is the same on every
    field without [cookie-expires] tag, and the pipes are the same.  On
    [Status] with an [int] the older revision writes a header and leaves
    the status alone, where the newer writes the status and no header. *)
Theorem printer_revisions_agree `{Stdlib} :
  (forall W (RW : ResponseWriter W) (w : W) key value,
      key <> "Status" ->
      Printer1.HeaderPrinter_Set key value w = Printer.HeaderPrinter_Set key value w)
  /\ (forall W (RW : ResponseWriter W) (w : W) key value field,
      Lookup (Tag field) "cookie-expires" = None ->
      Printer1.CookiePrinter_SetField key value field w
      = Printer.CookiePrinter_SetField key value field w)
  /\ (forall St E (l : Printer.PipePrinter St E) v s,
      Printer1.PipePrinter_Print l v s = Printer.PipePrinter_Print l v s)
  /\ (forall (w : TestWriter) code,
      let w1 := snd (Printer1.HeaderPrinter_Set "Status" (Int code) w) in
      let w0 := snd (Printer.HeaderPrinter_Set "Status" (Int code) w) in
      (status w1 = status w
       /\ Header_Values "Status" (header w1) = [fmt_Sprintf_s (Int code)])
      /\ (status w0 = code /\ header w0 = header w)).
Proof.
  repeat apply conj.
  - intros W RW w key value Hkey. unfold Printer.HeaderPrinter_Set.
    apply String.eqb_neq in Hkey. now rewrite Hkey.
  - intros W RW w key value field Htag.
    unfold Printer1.CookiePrinter_SetField, Printer.CookiePrinter_SetField.
    now rewrite Htag.
  - intros St E l v s. apply PipeFacts.PipePrinter_Print_same.
  - intros w code. cbn zeta. repeat apply conj; try reflexivity.
    apply PrinterFacts.Header_Values_Set.
Qed.

Lemma printer_revisions_agree_witness :
  Printer1.CookiePrinter_SetField (H := Fixtures.stdlib) "token" (Str "t")
    Fixtures.Token NewResponseWriter
  = Printer.CookiePrinter_SetField (H := Fixtures.stdlib) "token" (Str "t")
      Fixtures.Token NewResponseWriter
  /\ Printer1.HeaderPrinter_Set (H := Fixtures.stdlib) "etag" (Int 7)
       NewResponseWriter
     = Printer.HeaderPrinter_Set (H := Fixtures.stdlib) "etag" (Int 7)
         NewResponseWriter.
Proof.
  destruct (@printer_revisions_agree Fixtures.stdlib) as (Hset & Hfield & _).
  split.
  - apply (Hfield TestWriter _ NewResponseWriter "token" (Str "t") Fixtures.Token).
    reflexivity.
  - apply (Hset TestWriter _ NewResponseWriter "etag" (Int 7)). discriminate.
Defined.

End PrinterExtras.
